(** * Lowering of [mhlo.xla.rng_get_and_update_state] to arith/memref/tensor

    A shallow embedding of [RngGetAndUpdateStatePattern::matchAndRewrite]
    (hlo_legalize_to_arithmetic.cc) together with an evaluator for the
    instructions it emits.

    The pattern is modelled at two levels:
    - the IR level: a [ConversionPatternRewriter] holding the body of the
      nearest symbol table and the block that receives the created
      operations; [matchAndRewrite] is a computation in a small
      state-and-abort monad over it;
    - the run-time level: [exec] evaluates the emitted operations over a
      store of module globals and an environment of SSA values. *)

From Stdlib Require Import ZArith Lia.
From stdpp Require Import base option list strings gmap.

Local Open Scope Z_scope.

(** ** Machine integers of the C++ source *)

Module Ints.

Definition wrap_unsigned (w z : Z) : Z := z mod 2 ^ w.

Definition wrap_signed (w z : Z) : Z :=
  (z + 2 ^ (w - 1)) mod 2 ^ w - 2 ^ (w - 1).

(** conversion to [int] *)
Definition to_int (z : Z) : Z := wrap_signed 32 z.

(** conversion to [unsigned] *)
Definition to_unsigned (z : Z) : Z := wrap_unsigned 32 z.

(** [static_cast<int64_t>] *)
Definition to_int64 (z : Z) : Z := wrap_signed 64 z.

(** conversion to [uint64_t] *)
Definition to_uint64 (z : Z) : Z := wrap_unsigned 64 z.

(** [llvm::APInt(numBits, uint64_t val, bool isSigned)], as the unsigned
    value of the resulting bit pattern: the 64-bit word [val] is
    sign-extended when [isSigned] and zero-extended otherwise, and the
    bits above [numBits] are cleared. *)
Definition APInt (numBits : Z) (val : Z) (isSigned : bool) : Z :=
  if isSigned then wrap_unsigned numBits (to_int64 val)
  else wrap_unsigned numBits (to_uint64 val).

End Ints.

Import Ints.

(** ** Types, attributes and operations of the IR *)

Inductive Signedness := Signless | Signed | Unsigned.

Inductive MType :=
| IntegerType (width : Z) (signedness : Signedness)
| MemRefType (shape : list Z) (elementType : MType)
| RankedTensorType (shape : list Z) (elementType : MType).

Definition getIntOrFloatBitWidth (t : MType) : Z :=
  match t with
  | IntegerType w _ => w
  | _ => 0
  end.

Definition isSignedInteger (t : MType) : bool :=
  match t with
  | IntegerType _ Signed => true
  | _ => false
  end.

Definition getElementType (t : MType) : MType :=
  match t with
  | IntegerType _ _ => t
  | MemRefType _ e => e
  | RankedTensorType _ e => e
  end.

Definition getShape (t : MType) : list Z :=
  match t with
  | IntegerType _ _ => []
  | MemRefType s _ => s
  | RankedTensorType s _ => s
  end.

(** [ShapedType::getNumElements]: the product of the static dimensions. *)
Definition getNumElements (t : MType) : Z := foldr Z.mul 1 (getShape t).

(** [Builder::getIntegerType(width)]: a signless integer type. *)
Definition getIntegerType (width : Z) : MType := IntegerType width Signless.

(** [Builder::getIntegerAttr(Type, int64_t)] for an integer type. *)
Definition getIntegerAttr (type : MType) (value : Z) : Z :=
  APInt (getIntOrFloatBitWidth type) value (isSignedInteger type).

Record DenseElementsAttr := {
  dense_type : MType;
  dense_value : Z
}.

(** An operation is identified by its address; the operations created by
    the pattern have one result each, named after the operation. *)
Abbreviation Value := nat.

Inductive Operation :=
| memref_GlobalOp (sym_name sym_visibility : string) (type : MType)
                  (initial_value : DenseElementsAttr) (constant : bool)
                  (alignment : option Z)
| memref_GetGlobalOp (type : MType) (name : string)
| memref_LoadOp (memref : Value)
| memref_StoreOp (value memref : Value)
| arith_ConstantOp (type : MType) (value : Z)
| arith_AddIOp (lhs rhs : Value)
| arith_ShRUIOp (lhs rhs : Value)
| arith_TruncIOp (type : MType) (input : Value)
| tensor_FromElementsOp (type : MType) (elements : list Value)
| UnrealizedConversionCastOp (type : MType) (input : Value)
| func_FuncOp (sym_name : string).

(** The instruction being lowered: its [delta] attribute and result type. *)
Record XlaRngGetAndUpdateStateOp := {
  delta : Z;
  getType : MType
}.

Definition isa_GlobalOp (o : Operation) : bool :=
  match o with
  | memref_GlobalOp _ _ _ _ _ _ => true
  | _ => false
  end.

(** ** Symbol tables *)

Definition getNameIfSymbol (o : Operation) : option string :=
  match o with
  | memref_GlobalOp n _ _ _ _ _ => Some n
  | func_FuncOp n => Some n
  | _ => None
  end.

(** [SymbolTable::lookupSymbolIn]: the first operation of the table's body
    whose symbol name is [symbol]. *)
Fixpoint lookupSymbolIn (body : list (Value * Operation)) (symbol : string)
  : option (Value * Operation) :=
  match body with
  | [] => None
  | po :: rest =>
      if decide (getNameIfSymbol po.2 = Some symbol) then Some po
      else lookupSymbolIn rest symbol
  end.

(** ** The rewriter *)

Record ConversionPatternRewriter := {
  symbolTableBody : list (Value * Operation);
    (* front block of the nearest symbol table of the matched instruction *)
  insertionBlock : list (Value * Operation);
    (* operations created at the insertion point, in creation order *)
  replaced : gmap Value Value;
    (* replaceOp: matched instruction, replacement value *)
  nextOp : nat
}.

Inductive LogicalResult := success | failure.

Inductive Outcome (A : Type) :=
| Returned (a : A)
| AssertionFailed (message : string)
| OutOfFuel.
Arguments Returned {A} a.
Arguments AssertionFailed {A} message.
Arguments OutOfFuel {A}.

Definition Rewrite (A : Type) : Type :=
  ConversionPatternRewriter -> Outcome (A * ConversionPatternRewriter).

Definition ret {A} (a : A) : Rewrite A := fun rw => Returned (a, rw).

Definition bind {A B} (c : Rewrite A) (k : A -> Rewrite B) : Rewrite B :=
  fun rw =>
    match c rw with
    | Returned (a, rw') => k a rw'
    | AssertionFailed m => AssertionFailed m
    | OutOfFuel => OutOfFuel
    end.

Notation "'let*' x ':=' c 'in' k" := (bind c (fun x => k))
  (at level 10, x name, c at level 100, k at level 200).

Definition assert (b : bool) (message : string) : Rewrite unit :=
  fun rw => if b then Returned (tt, rw) else AssertionFailed message.

(** [rewriter.create<OpTy>(...)] at the current insertion point. *)
Definition create (o : Operation) : Rewrite Value :=
  fun rw =>
    Returned (nextOp rw,
              {| symbolTableBody := symbolTableBody rw;
                 insertionBlock := insertionBlock rw ++ [(nextOp rw, o)];
                 replaced := replaced rw;
                 nextOp := S (nextOp rw) |}).

(** [rewriter.create<OpTy>(...)] under an [InsertionGuard] with the
    insertion point set to the start of the symbol table's front block. *)
Definition createAtStartOfSymbolTable (o : Operation) : Rewrite Value :=
  fun rw =>
    Returned (nextOp rw,
              {| symbolTableBody := (nextOp rw, o) :: symbolTableBody rw;
                 insertionBlock := insertionBlock rw;
                 replaced := replaced rw;
                 nextOp := S (nextOp rw) |}).

Definition lookupNearestSymbolFrom (symbol : string)
  : Rewrite (option (Value * Operation)) :=
  fun rw => Returned (lookupSymbolIn (symbolTableBody rw) symbol, rw).

Definition replaceOp (op : Value) (v : Value) : Rewrite unit :=
  fun rw =>
    Returned (tt,
              {| symbolTableBody := symbolTableBody rw;
                 insertionBlock := insertionBlock rw;
                 replaced := <[op := v]> (replaced rw);
                 nextOp := nextOp rw |}).

(** ** RngGetAndUpdateStatePattern *)

Definition globalName : string := "rng_state".
Definition initialSeed : Z := 0x7012395.
Definition seedType : MType := getIntegerType 128.
Definition memrefType : MType := MemRefType [] seedType.

(** Lines 59-74: get or define the global variable. *)
Definition getOrDefineGlobal : Rewrite (Value * Operation) :=
  let* globalOp := lookupNearestSymbolFrom globalName in
  let* globalOp :=
    match globalOp with
    | Some g => ret g
    | None =>
        let priv := "private"%string in
        let initialValue :=
          {| dense_type := RankedTensorType [] seedType;
             dense_value := getIntegerAttr seedType initialSeed |} in
        let g := memref_GlobalOp globalName priv memrefType initialValue
                                 false None in
        let* p := createAtStartOfSymbolTable g in
        ret (p, g)
    end in
  let* _ := assert (isa_GlobalOp globalOp.2)
                   "rng_state was defined somewhere else, not as a global op" in
  ret globalOp.

(** Lines 77-84: get and update; returns [oldVal]. *)
Definition getAndUpdate (op : XlaRngGetAndUpdateStateOp) : Rewrite Value :=
  let* rngState := create (memref_GetGlobalOp memrefType globalName) in
  let* oldVal := create (memref_LoadOp rngState) in
  let* delta := create (arith_ConstantOp seedType
                          (getIntegerAttr seedType (to_int64 (delta op)))) in
  let* newVal := create (arith_AddIOp oldVal delta) in
  let* _ := create (memref_StoreOp newVal rngState) in
  ret oldVal.

(** Lines 88-94: the body of the [for] loop from the test [i >= 0] on; one
    unit of fuel per evaluation of the test. *)
Fixpoint packLoop (fuel : nat) (oldVal : Value) (smallerIntType : MType)
                  (wordSize : Z) (i : Z) (pieces : list Value)
  : Rewrite (list Value) :=
  match fuel with
  | O => fun _ => OutOfFuel
  | S fuel' =>
      if 0 <=? i then
        let* shiftDistance :=
          create (arith_ConstantOp seedType (getIntegerAttr seedType i)) in
        let* shifted := create (arith_ShRUIOp oldVal shiftDistance) in
        let* piece := create (arith_TruncIOp smallerIntType shifted) in
        packLoop fuel' oldVal smallerIntType wordSize
                 (to_int (to_unsigned (to_unsigned i - wordSize)))
                 (pieces ++ [piece])
      else ret pieces
  end.

Definition matchAndRewrite (fuel : nat)
    (op : Value * XlaRngGetAndUpdateStateOp) : Rewrite LogicalResult :=
  let resultType := getType op.2 in
  let wordSize := getIntOrFloatBitWidth (getElementType resultType) in
  let smallerIntType := getIntegerType wordSize in
  let numElements := getNumElements resultType in
  let* _ := getOrDefineGlobal in
  let* oldVal := getAndUpdate op.2 in
  let* pieces := packLoop fuel oldVal smallerIntType wordSize
                          (to_int ((numElements - 1) * wordSize)) [] in
  let* resultTensor :=
    create (tensor_FromElementsOp
              (RankedTensorType (getShape resultType) smallerIntType)
              pieces) in
  let* cast := create (UnrealizedConversionCastOp resultType resultTensor) in
  let* _ := replaceOp op.1 cast in
  ret success.

(** The conversion driver restricted to this pattern set: the matched
    instructions are legalized one after the other, in the order of the
    traversal. *)
Fixpoint legalize (fuel : nat)
    (ops : list (Value * XlaRngGetAndUpdateStateOp))
  : Rewrite LogicalResult :=
  match ops with
  | [] => ret success
  | op :: rest =>
      fun rw =>
        match matchAndRewrite fuel op rw with
        | Returned (success, rw') => legalize fuel rest rw'
        | Returned (failure, rw') => Returned (failure, rw')
        | AssertionFailed m => AssertionFailed m
        | OutOfFuel => OutOfFuel
        end
  end.

(** [applyPartialConversion]: when the legalization of an instruction
    fails, the conversion fails and every change is undone. *)
Definition applyPartialConversion (fuel : nat)
    (ops : list (Value * XlaRngGetAndUpdateStateOp))
  : Rewrite LogicalResult :=
  fun rw =>
    match legalize fuel ops rw with
    | Returned (failure, _) => Returned (failure, rw)
    | r => r
    end.

(** [HloLegalizeToArithmeticPass::runOnOperation]: the pass signals
    failure when the conversion fails. *)
Inductive PassStatus := passSucceeded | passFailureSignalled.

Definition runOnOperation (fuel : nat)
    (ops : list (Value * XlaRngGetAndUpdateStateOp))
  : Rewrite PassStatus :=
  let* result := applyPartialConversion fuel ops in
  match result with
  | failure => ret passFailureSignalled
  | success => ret passSucceeded
  end.

(** ** Evaluation of the emitted operations *)

#[warnings="-register-all"]
Inductive RtVal :=
| VInt (width : Z) (v : Z)
| VMemRef (name : string)
| VTensor (type : MType) (elements : list RtVal).

Record Machine := {
  globals : gmap string RtVal;
  env : gmap nat RtVal
}.

Definition setValue (r : Value) (v : RtVal) (m : Machine) : Machine :=
  {| globals := globals m; env := <[r := v]> (env m) |}.

Definition setGlobal (name : string) (v : RtVal) (m : Machine) : Machine :=
  {| globals := <[name := v]> (globals m); env := env m |}.

(** One operation, after the documentation of the arith, memref and
    tensor dialects. [arith.addi] wraps around at the operand width;
    [arith.shrui] is a logical shift, defined for shift amounts below the
    operand width; [arith.trunci] keeps the low bits of its operand; the
    unrealized cast reinterprets its operand at the requested type. Symbol
    definitions are not executable. What the verifiers of the operations
    require of their types is not part of the evaluation. *)
Definition exec1 (po : Value * Operation) (m : Machine) : option Machine :=
  let r := po.1 in
  match po.2 with
  | memref_GlobalOp _ _ _ _ _ _ => None
  | func_FuncOp _ => None
  | memref_GetGlobalOp _ name =>
      match globals m !! name with
      | Some _ => Some (setValue r (VMemRef name) m)
      | None => None
      end
  | memref_LoadOp memref =>
      match env m !! memref with
      | Some (VMemRef name) =>
          match globals m !! name with
          | Some v => Some (setValue r v m)
          | None => None
          end
      | _ => None
      end
  | memref_StoreOp value memref =>
      match env m !! value, env m !! memref with
      | Some v, Some (VMemRef name) =>
          match globals m !! name with
          | Some _ => Some (setGlobal name v m)
          | None => None
          end
      | _, _ => None
      end
  | arith_ConstantOp type value =>
      Some (setValue r (VInt (getIntOrFloatBitWidth type) value) m)
  | arith_AddIOp lhs rhs =>
      match env m !! lhs, env m !! rhs with
      | Some (VInt w x), Some (VInt w' y) =>
          if decide (w = w') then Some (setValue r (VInt w ((x + y) mod 2 ^ w)) m)
          else None
      | _, _ => None
      end
  | arith_ShRUIOp lhs rhs =>
      match env m !! lhs, env m !! rhs with
      | Some (VInt w x), Some (VInt w' y) =>
          if decide (w = w') then
            if y <? w then Some (setValue r (VInt w (Z.shiftr x y)) m)
            else None
          else None
      | _, _ => None
      end
  | arith_TruncIOp type input =>
      match env m !! input with
      | Some (VInt _ x) =>
          let w := getIntOrFloatBitWidth type in
          Some (setValue r (VInt w (x mod 2 ^ w)) m)
      | _ => None
      end
  | tensor_FromElementsOp type elements =>
      match mapM (fun e => env m !! e) elements with
      | Some vs => Some (setValue r (VTensor type vs) m)
      | None => None
      end
  | UnrealizedConversionCastOp type input =>
      match env m !! input with
      | Some (VTensor _ vs) => Some (setValue r (VTensor type vs) m)
      | Some v => Some (setValue r v m)
      | None => None
      end
  end.

Fixpoint exec (ops : list (Value * Operation)) (m : Machine)
  : option Machine :=
  match ops with
  | [] => Some m
  | po :: rest =>
      match exec1 po m with
      | Some m' => exec rest m'
      | None => None
      end
  end.

(** The store of a module at start-up: every memref global holds its
    initial value. *)
Definition initialGlobals (body : list (Value * Operation))
  : gmap string RtVal :=
  foldr (fun po g =>
           match po.2 with
           | memref_GlobalOp n _ ty init _ _ =>
               <[n := VInt (getIntOrFloatBitWidth (getElementType ty))
                           (dense_value init)]> g
           | _ => g
           end) ∅ body.

(** The value that replaces the matched instruction [op]. *)
Definition replacementOf (rw : ConversionPatternRewriter) (op : Value)
  : option Value :=
  replaced rw !! op.

(** The run-time value of the replacement of [op]. *)
Definition resultOf (rw : ConversionPatternRewriter) (op : Value)
                    (m : Machine) : option RtVal :=
  replacementOf rw op ≫= fun v => env m !! v.

(** The counter held by the global [rng_state]. *)
Definition counterOf (m : Machine) : option RtVal := globals m !! globalName.

(** ** Reference functions used to state the properties *)

(** Element [j] (most significant first) of an [N]-element packing of
    [value] into elements of [E] bits. *)
Definition packedElement (value N E : Z) (j : nat) : Z :=
  Z.shiftr value ((N - 1 - Z.of_nat j) * E) mod 2 ^ E.

Definition packed (value N E : Z) : list Z :=
  map (packedElement value N E) (seq 0 (Z.to_nat N)).

(** The [k] chunks of [E] bits of [value] found at the shift distances
    [i], [i - E], [i - 2 E], ... *)
Fixpoint chunksFrom (value E i : Z) (k : nat) : list Z :=
  match k with
  | O => []
  | S k' => Z.shiftr value i mod 2 ^ E :: chunksFrom value E (i - E) k'
  end.

(** Concatenation of [E]-bit elements, most significant first. *)
Definition concatMSF (E : Z) (elements : list Z) : Z :=
  foldl (fun acc x => acc * 2 ^ E + x) 0 elements.

Definition countSymbol (symbol : string) (body : list (Value * Operation))
  : nat :=
  length (filter (fun po => getNameIfSymbol po.2 = Some symbol) body).

Definition countGlobal (symbol : string) (body : list (Value * Operation))
  : nat :=
  length (filter (fun po => getNameIfSymbol po.2 = Some symbol
                            /\ isa_GlobalOp po.2 = true) body).


(** The operations of lines 77-84, created from address [n] on, with the
    increment constant [c]. *)
Definition updateOps (n : nat) (c : Z) : list (Value * Operation) :=
  [ (n, memref_GetGlobalOp memrefType globalName);
    (S n, memref_LoadOp n);
    (S (S n), arith_ConstantOp seedType c);
    (S (S (S n)), arith_AddIOp (S n) (S (S n)));
    (S (S (S (S n))), memref_StoreOp (S (S (S n))) n) ].

(** The operations of [k] iterations of the loop of lines 88-94, starting
    at shift distance [i] and address [n]. *)
Fixpoint pieceOps (oldVal : Value) (smallerIntType : MType) (wordSize : Z)
                  (n : nat) (i : Z) (k : nat) : list (Value * Operation) :=
  match k with
  | O => []
  | S k' =>
      (n, arith_ConstantOp seedType i)
        :: (S n, arith_ShRUIOp oldVal n)
        :: (S (S n), arith_TruncIOp smallerIntType (S n))
        :: pieceOps oldVal smallerIntType wordSize (S (S (S n)))
                    (i - wordSize) k'
  end.

(** The results of the [arith.trunci] operations of [pieceOps]. *)
Fixpoint pieceValues (n : nat) (k : nat) : list Value :=
  match k with
  | O => []
  | S k' => S (S n) :: pieceValues (S (S (S n))) k'
  end.

Definition wordSizeOf (op : XlaRngGetAndUpdateStateOp) : Z :=
  getIntOrFloatBitWidth (getElementType (getType op)).

Definition numElementsOf (op : XlaRngGetAndUpdateStateOp) : Z :=
  getNumElements (getType op).

(** The constant materialized for the increment (lines 80-82). *)
Definition deltaConstant (op : XlaRngGetAndUpdateStateOp) : Z :=
  getIntegerAttr seedType (to_int64 (delta op)).

(** The shift distance of the first iteration, [(numElements - 1) *
    wordSize] narrowed to [int], and the number of iterations of the loop
    from there. *)
Definition firstShift (op : XlaRngGetAndUpdateStateOp) : Z :=
  to_int ((numElementsOf op - 1) * wordSizeOf op).

Definition iterations (op : XlaRngGetAndUpdateStateOp) : nat :=
  Z.to_nat (firstShift op / wordSizeOf op + 1).

(** Everything one application of the pattern creates at the insertion
    point, from address [n] on. *)
Definition loweredOps (n : nat) (op : XlaRngGetAndUpdateStateOp)
  : list (Value * Operation) :=
  let E := wordSizeOf op in
  let k := iterations op in
  let m := (n + 5 + 3 * k)%nat in
  updateOps n (deltaConstant op)
    ++ pieceOps (S n) (getIntegerType E) E (n + 5) (firstShift op) k
    ++ [ (m, tensor_FromElementsOp
               (RankedTensorType (getShape (getType op)) (getIntegerType E))
               (pieceValues (n + 5) k));
         (S m, UnrealizedConversionCastOp (getType op) m) ].

(** The global the pattern defines. *)
Definition rngStateGlobal : Operation :=
  memref_GlobalOp "rng_state" "private"
    (MemRefType [] (IntegerType 128 Signless))
    {| dense_type := RankedTensorType [] (IntegerType 128 Signless);
       dense_value := 0x7012395 |}
    false None.

(** The symbol table after the find-or-create step. *)
Definition tableAfter (rw : ConversionPatternRewriter)
  : list (Value * Operation) :=
  match lookupSymbolIn (symbolTableBody rw) globalName with
  | Some _ => symbolTableBody rw
  | None => (nextOp rw, rngStateGlobal) :: symbolTableBody rw
  end.

(** The first free address after the find-or-create step. *)
Definition nextAfter (rw : ConversionPatternRewriter) : nat :=
  match lookupSymbolIn (symbolTableBody rw) globalName with
  | Some _ => nextOp rw
  | None => S (nextOp rw)
  end.

(** The rewriter after one application of the pattern to the instruction
    at address [p]. *)
Definition lowered (p : Value) (op : XlaRngGetAndUpdateStateOp)
                   (rw : ConversionPatternRewriter)
  : ConversionPatternRewriter :=
  let n := nextAfter rw in
  let k := iterations op in
  {| symbolTableBody := tableAfter rw;
     insertionBlock := insertionBlock rw ++ loweredOps n op;
     replaced := <[p := S (n + 5 + 3 * k)]> (replaced rw);
     nextOp := S (S (n + 5 + 3 * k)) |}.

(** ** Preconditions *)

(** An existing symbol [rng_state] is a memref global. *)
Definition rngStateIsGlobal (rw : ConversionPatternRewriter) : Prop :=
  forall po, lookupSymbolIn (symbolTableBody rw) globalName = Some po ->
             isa_GlobalOp po.2 = true.

(** The element width is that of an integer type and fits the loop
    counter. *)
Definition validWordSize (op : XlaRngGetAndUpdateStateOp) : Prop :=
  0 < wordSizeOf op < 2 ^ 31.

(** A static result shape of [N] elements of [E] bits with
    [N * E <= 128]. *)
Record wellShaped (op : XlaRngGetAndUpdateStateOp) : Prop := {
  ws_width : validWordSize op;
  ws_count : 0 <= numElementsOf op;
  ws_fits : numElementsOf op * wordSizeOf op <= 128
}.

(** A request as the instruction set allows it: a 64-bit unsigned [delta]
    and a well-shaped result. *)
Record wellFormed (op : XlaRngGetAndUpdateStateOp) : Prop := {
  wf_delta : 0 <= delta op < 2 ^ 64;
  wf_shape : wellShaped op
}.

(** The machine holds the 128-bit counter [v] in [rng_state]. *)
Definition holds (m : Machine) (v : Z) : Prop :=
  counterOf m = Some (VInt 128 v).

Definition isStore (o : Operation) : bool :=
  match o with
  | memref_StoreOp _ _ => true
  | _ => false
  end.

(** ** Sample modules, requests and machines *)

Definition emptyModule : ConversionPatternRewriter :=
  {| symbolTableBody := []; insertionBlock := []; replaced := ∅; nextOp := 1 |}.

(** A module in which [rng_state] names a function. *)
Definition moduleWithFunction : ConversionPatternRewriter :=
  {| symbolTableBody := [(0%nat, func_FuncOp "rng_state")];
     insertionBlock := []; replaced := ∅; nextOp := 1 |}.

Definition tensorOf (N E : Z) : MType :=
  RankedTensorType [N] (IntegerType E Unsigned).

Definition request (d N E : Z) : XlaRngGetAndUpdateStateOp :=
  {| delta := d; getType := tensorOf N E |}.

Definition machineHolding (v : Z) : Machine :=
  {| globals := {[ globalName := VInt 128 v ]}; env := ∅ |}.

(** ** Operands, dialects, the conversion target *)

Definition operandsOf (o : Operation) : list Value :=
  match o with
  | memref_LoadOp memref => [memref]
  | memref_StoreOp value memref => [value; memref]
  | arith_AddIOp lhs rhs => [lhs; rhs]
  | arith_ShRUIOp lhs rhs => [lhs; rhs]
  | arith_TruncIOp _ input => [input]
  | tensor_FromElementsOp _ elements => elements
  | UnrealizedConversionCastOp _ input => [input]
  | memref_GlobalOp _ _ _ _ _ _ => []
  | memref_GetGlobalOp _ _ => []
  | arith_ConstantOp _ _ => []
  | func_FuncOp _ => []
  end.

(** The symbol an operation refers to. *)
Definition symbolUseOf (o : Operation) : option string :=
  match o with
  | memref_GetGlobalOp _ name => Some name
  | _ => None
  end.

Inductive Dialect :=
| ArithmeticDialect
| BuiltinDialect
| MemRefDialect
| TensorDialect
| FuncDialect
| MhloDialect.

#[global] Instance Dialect_eq_dec : EqDecision Dialect.
Proof. solve_decision. Defined.

Definition getDialect (o : Operation) : Dialect :=
  match o with
  | memref_GlobalOp _ _ _ _ _ _ => MemRefDialect
  | memref_GetGlobalOp _ _ => MemRefDialect
  | memref_LoadOp _ => MemRefDialect
  | memref_StoreOp _ _ => MemRefDialect
  | arith_ConstantOp _ _ => ArithmeticDialect
  | arith_AddIOp _ _ => ArithmeticDialect
  | arith_ShRUIOp _ _ => ArithmeticDialect
  | arith_TruncIOp _ _ => ArithmeticDialect
  | tensor_FromElementsOp _ _ => TensorDialect
  | UnrealizedConversionCastOp _ _ => BuiltinDialect
  | func_FuncOp _ => FuncDialect
  end.

Definition getOperationName (o : Operation) : string :=
  match o with
  | memref_GlobalOp _ _ _ _ _ _ => "memref.global"
  | memref_GetGlobalOp _ _ => "memref.get_global"
  | memref_LoadOp _ => "memref.load"
  | memref_StoreOp _ _ => "memref.store"
  | arith_ConstantOp _ _ => "arith.constant"
  | arith_AddIOp _ _ => "arith.addi"
  | arith_ShRUIOp _ _ => "arith.shrui"
  | arith_TruncIOp _ _ => "arith.trunci"
  | tensor_FromElementsOp _ _ => "tensor.from_elements"
  | UnrealizedConversionCastOp _ _ => "builtin.unrealized_conversion_cast"
  | func_FuncOp _ => "func.func"
  end.

(** The name of the instruction the pattern matches. *)
Definition XlaRngGetAndUpdateStateOp_name : string :=
  "mhlo.xla.rng_get_and_update_state".

(** [HloLegalizeToArithmeticPass::getDependentDialects] *)
Definition getDependentDialects : list Dialect :=
  [ArithmeticDialect; MemRefDialect; TensorDialect].

Inductive LegalizationAction := Legal | Illegal.

(** [ConversionTarget]: actions set for single operations and for whole
    dialects; the latest setting of a key is the one in force. *)
Record ConversionTarget := {
  opActions : list (string * LegalizationAction);
  dialectActions : list (Dialect * LegalizationAction)
}.

Definition addIllegalOp (name : string) (t : ConversionTarget)
  : ConversionTarget :=
  {| opActions := (name, Illegal) :: opActions t;
     dialectActions := dialectActions t |}.

Definition addLegalDialect (ds : list Dialect) (t : ConversionTarget)
  : ConversionTarget :=
  {| opActions := opActions t;
     dialectActions := map (fun d => (d, Legal)) ds ++ dialectActions t |}.

(** [ConversionTarget::getOpAction]: the action set for the operation, or
    else the one set for its dialect. *)
Definition getOpAction (t : ConversionTarget) (name : string) (d : Dialect)
  : option LegalizationAction :=
  match list_find (fun x => x.1 = name) (opActions t) with
  | Some (_, (_, a)) => Some a
  | None =>
      match list_find (fun x => x.1 = d) (dialectActions t) with
      | Some (_, (_, a)) => Some a
      | None => None
      end
  end.

(** The target of [runOnOperation] (lines 123-125). *)
Definition target : ConversionTarget :=
  addLegalDialect
    [ArithmeticDialect; BuiltinDialect; MemRefDialect; TensorDialect]
    (addIllegalOp XlaRngGetAndUpdateStateOp_name
       {| opActions := []; dialectActions := [] |}).

(** The sum of the increments of a list of requests. *)
Definition sumDeltas (ops : list (Value * XlaRngGetAndUpdateStateOp)) : Z :=
  foldr (fun po s => delta po.2 + s) 0 ops.

(** ** Builds with and without assertions *)

(** The [assert] macro of lines 73-74: with [NDEBUG] defined it expands to
    nothing; otherwise a failed check stops the program. *)
Definition assertIn (NDEBUG : bool) (b : bool) (message : string)
  : Rewrite unit :=
  if NDEBUG then ret tt else assert b message.

(** Lines 59-74 in a build with or without [NDEBUG]. *)
Definition getOrDefineGlobalIn (NDEBUG : bool) : Rewrite (Value * Operation) :=
  let* globalOp := lookupNearestSymbolFrom globalName in
  let* globalOp :=
    match globalOp with
    | Some g => ret g
    | None =>
        let priv := "private"%string in
        let initialValue :=
          {| dense_type := RankedTensorType [] seedType;
             dense_value := getIntegerAttr seedType initialSeed |} in
        let g := memref_GlobalOp globalName priv memrefType initialValue
                                 false None in
        let* p := createAtStartOfSymbolTable g in
        ret (p, g)
    end in
  let* _ := assertIn NDEBUG (isa_GlobalOp globalOp.2)
                     "rng_state was defined somewhere else, not as a global op" in
  ret globalOp.

(** [matchAndRewrite] in a build with or without [NDEBUG]. *)
Definition matchAndRewriteIn (NDEBUG : bool) (fuel : nat)
    (op : Value * XlaRngGetAndUpdateStateOp) : Rewrite LogicalResult :=
  let resultType := getType op.2 in
  let wordSize := getIntOrFloatBitWidth (getElementType resultType) in
  let smallerIntType := getIntegerType wordSize in
  let numElements := getNumElements resultType in
  let* _ := getOrDefineGlobalIn NDEBUG in
  let* oldVal := getAndUpdate op.2 in
  let* pieces := packLoop fuel oldVal smallerIntType wordSize
                          (to_int ((numElements - 1) * wordSize)) [] in
  let* resultTensor :=
    create (tensor_FromElementsOp
              (RankedTensorType (getShape resultType) smallerIntType)
              pieces) in
  let* cast := create (UnrealizedConversionCastOp resultType resultTensor) in
  let* _ := replaceOp op.1 cast in
  ret success.

Fixpoint legalizeIn (NDEBUG : bool) (fuel : nat)
    (ops : list (Value * XlaRngGetAndUpdateStateOp))
  : Rewrite LogicalResult :=
  match ops with
  | [] => ret success
  | op :: rest =>
      fun rw =>
        match matchAndRewriteIn NDEBUG fuel op rw with
        | Returned (success, rw') => legalizeIn NDEBUG fuel rest rw'
        | Returned (failure, rw') => Returned (failure, rw')
        | AssertionFailed m => AssertionFailed m
        | OutOfFuel => OutOfFuel
        end
  end.

Definition applyPartialConversionIn (NDEBUG : bool) (fuel : nat)
    (ops : list (Value * XlaRngGetAndUpdateStateOp))
  : Rewrite LogicalResult :=
  fun rw =>
    match legalizeIn NDEBUG fuel ops rw with
    | Returned (failure, _) => Returned (failure, rw)
    | r => r
    end.

Definition runOnOperationIn (NDEBUG : bool) (fuel : nat)
    (ops : list (Value * XlaRngGetAndUpdateStateOp))
  : Rewrite PassStatus :=
  let* result := applyPartialConversionIn NDEBUG fuel ops in
  match result with
  | failure => ret passFailureSignalled
  | success => ret passSucceeded
  end.

(** * Properties *)

(** ** Machine integers *)

Section IntLemmas.

Lemma to_int_small z : - 2 ^ 31 <= z < 2 ^ 31 -> to_int z = z.
Proof.
  intros Hz. unfold to_int, wrap_signed.
  change (2 ^ (32 - 1)) with (2 ^ 31).
  rewrite Z.mod_small; lia.
Qed.

Lemma to_int_range z : - 2 ^ 31 <= to_int z < 2 ^ 31.
Proof.
  unfold to_int, wrap_signed. change (2 ^ (32 - 1)) with (2 ^ 31).
  pose proof (Z.mod_pos_bound (z + 2 ^ 31) (2 ^ 32) ltac:(lia)). lia.
Qed.

Lemma to_int_to_unsigned z : to_int (to_unsigned z) = to_int z.
Proof.
  unfold to_int, to_unsigned, wrap_signed, wrap_unsigned.
  change (2 ^ (32 - 1)) with (2 ^ 31). f_equal.
  rewrite Zplus_mod_idemp_l. reflexivity.
Qed.

(** [i -= wordSize] on an [int] counter and an [unsigned] step. *)
Lemma loop_decrement i wordSize :
  0 <= i < 2 ^ 31 -> 0 < wordSize < 2 ^ 31 ->
  to_int (to_unsigned (to_unsigned i - wordSize)) = i - wordSize.
Proof.
  intros Hi HE. rewrite to_int_to_unsigned.
  unfold to_unsigned at 1, wrap_unsigned. rewrite Z.mod_small by lia.
  apply to_int_small. lia.
Qed.

Lemma getIntegerAttr_seedType v :
  0 <= v < 2 ^ 64 -> getIntegerAttr seedType v = v.
Proof.
  intros Hv. unfold getIntegerAttr, seedType, getIntegerType, APInt. simpl.
  unfold wrap_unsigned, to_uint64, wrap_unsigned.
  rewrite (Z.mod_small v) by lia. apply Z.mod_small. lia.
Qed.

Lemma to_uint64_to_int64 z : to_uint64 (to_int64 z) = to_uint64 z.
Proof.
  unfold to_uint64, to_int64, wrap_unsigned, wrap_signed.
  change (2 ^ (64 - 1)) with (2 ^ 63).
  rewrite Zminus_mod_idemp_l.
  replace (z + 2 ^ 63 - 2 ^ 63) with z by lia. reflexivity.
Qed.

Lemma deltaConstant_eq op : deltaConstant op = delta op mod 2 ^ 64.
Proof.
  unfold deltaConstant, getIntegerAttr, seedType, getIntegerType, APInt.
  simpl. unfold wrap_unsigned at 1. fold (to_uint64 (delta op)).
  rewrite to_uint64_to_int64. unfold to_uint64, wrap_unsigned.
  pose proof (Z.mod_pos_bound (delta op) (2 ^ 64) ltac:(lia)).
  apply Z.mod_small. lia.
Qed.

Lemma deltaConstant_uint64 op :
  0 <= delta op < 2 ^ 64 -> deltaConstant op = delta op.
Proof. intros H. rewrite deltaConstant_eq. apply Z.mod_small. lia. Qed.

End IntLemmas.

(** ** The rewriter monad and the three stages of the pattern *)

Section Stages.

Lemma bind_returned {A B} (c : Rewrite A) (k : A -> Rewrite B) rw a rw' :
  c rw = Returned (a, rw') -> bind c k rw = k a rw'.
Proof. intros H. unfold bind. rewrite H. reflexivity. Qed.

Lemma bind_assertion {A B} (c : Rewrite A) (k : A -> Rewrite B) rw m :
  c rw = AssertionFailed m -> bind c k rw = AssertionFailed m.
Proof. intros H. unfold bind. rewrite H. reflexivity. Qed.

Lemma rngStateGlobal_created :
  memref_GlobalOp globalName "private" memrefType
    {| dense_type := RankedTensorType [] seedType;
       dense_value := getIntegerAttr seedType initialSeed |} false None
  = rngStateGlobal.
Proof. reflexivity. Qed.

Lemma getOrDefineGlobal_found rw po :
  lookupSymbolIn (symbolTableBody rw) globalName = Some po ->
  isa_GlobalOp po.2 = true ->
  getOrDefineGlobal rw = Returned (po, rw).
Proof.
  intros Hl Hk. unfold getOrDefineGlobal, bind, lookupNearestSymbolFrom.
  rewrite Hl. unfold ret, assert. rewrite Hk. reflexivity.
Qed.

Lemma getOrDefineGlobal_foreign rw po :
  lookupSymbolIn (symbolTableBody rw) globalName = Some po ->
  isa_GlobalOp po.2 = false ->
  getOrDefineGlobal rw
  = AssertionFailed "rng_state was defined somewhere else, not as a global op".
Proof.
  intros Hl Hk. unfold getOrDefineGlobal, bind, lookupNearestSymbolFrom.
  rewrite Hl. unfold ret, assert. rewrite Hk. reflexivity.
Qed.

Lemma getOrDefineGlobal_created rw :
  lookupSymbolIn (symbolTableBody rw) globalName = None ->
  getOrDefineGlobal rw
  = Returned ((nextOp rw, rngStateGlobal),
              {| symbolTableBody := (nextOp rw, rngStateGlobal) :: symbolTableBody rw;
                 insertionBlock := insertionBlock rw;
                 replaced := replaced rw;
                 nextOp := S (nextOp rw) |}).
Proof.
  intros Hl. unfold getOrDefineGlobal, bind, lookupNearestSymbolFrom.
  rewrite Hl. reflexivity.
Qed.

(** Under the precondition, the find-or-create step returns and leaves
    the rewriter with [tableAfter] and [nextAfter]. *)
Lemma getOrDefineGlobal_returns rw :
  rngStateIsGlobal rw ->
  exists g,
    getOrDefineGlobal rw
    = Returned (g, {| symbolTableBody := tableAfter rw;
                      insertionBlock := insertionBlock rw;
                      replaced := replaced rw;
                      nextOp := nextAfter rw |})
    /\ lookupSymbolIn (tableAfter rw) globalName = Some g
    /\ isa_GlobalOp g.2 = true.
Proof.
  intros Hpre. unfold tableAfter, nextAfter.
  destruct (lookupSymbolIn (symbolTableBody rw) globalName) as [po|] eqn:Hl.
  - exists po. rewrite (getOrDefineGlobal_found rw po Hl (Hpre po Hl)).
    destruct rw; auto.
  - exists (nextOp rw, rngStateGlobal).
    rewrite (getOrDefineGlobal_created rw Hl). auto.
Qed.

Lemma getAndUpdate_returns op rw :
  getAndUpdate op rw
  = Returned (S (nextOp rw),
              {| symbolTableBody := symbolTableBody rw;
                 insertionBlock :=
                   insertionBlock rw ++ updateOps (nextOp rw) (deltaConstant op);
                 replaced := replaced rw;
                 nextOp := (nextOp rw + 5)%nat |}).
Proof.
  unfold getAndUpdate, bind, create, ret. simpl.
  rewrite <- !app_assoc. simpl.
  replace (nextOp rw + 5)%nat with (S (S (S (S (S (nextOp rw)))))) by lia.
  reflexivity.
Qed.

Lemma packLoop_returns oldVal small E k :
  0 < E < 2 ^ 31 ->
  forall fuel i pieces rw,
    (k < fuel)%nat -> i < 2 ^ 31 ->
    i < Z.of_nat k * E -> ((0 < k)%nat -> (Z.of_nat k - 1) * E <= i) ->
    packLoop fuel oldVal small E i pieces rw
    = Returned (pieces ++ pieceValues (nextOp rw) k,
                {| symbolTableBody := symbolTableBody rw;
                   insertionBlock :=
                     insertionBlock rw ++ pieceOps oldVal small E (nextOp rw) i k;
                   replaced := replaced rw;
                   nextOp := (nextOp rw + 3 * k)%nat |}).
Proof.
  intros HE. induction k as [|k IH]; intros fuel i pieces rw Hf Hi Hk Hk'.
  - destruct fuel as [|fuel]; [lia|]. simpl.
    destruct (Z.leb_spec 0 i); [lia|].
    unfold ret. rewrite !app_nil_r, Nat.add_0_r. destruct rw; reflexivity.
  - destruct fuel as [|fuel]; [lia|]. simpl packLoop.
    specialize (Hk' ltac:(lia)).
    destruct (Z.leb_spec 0 i); [|lia].
    unfold bind at 1 2 3. unfold create at 1 2 3. simpl.
    rewrite loop_decrement by lia.
    rewrite getIntegerAttr_seedType by lia.
    rewrite IH by (simpl; lia). simpl.
    rewrite <- !app_assoc. simpl.
    do 2 f_equal. f_equal. lia.
Qed.

Lemma firstShift_range op : - 2 ^ 31 <= firstShift op < 2 ^ 31.
Proof. apply to_int_range. Qed.

Lemma iterations_bounds op :
  validWordSize op ->
  firstShift op < Z.of_nat (iterations op) * wordSizeOf op
  /\ ((0 < iterations op)%nat ->
      (Z.of_nat (iterations op) - 1) * wordSizeOf op <= firstShift op).
Proof.
  unfold validWordSize, iterations. intros HE.
  set (i := firstShift op). set (E := wordSizeOf op) in *.
  pose proof (Z.mod_pos_bound i E ltac:(lia)) as Hm.
  pose proof (Z.div_mod i E ltac:(lia)) as Hd.
  destruct (Z.le_gt_cases 0 i) as [Hi|Hi].
  - assert (0 <= i / E) by (apply Z.div_pos; lia).
    rewrite Z2Nat.id by lia. split; [nia|]. intros _. nia.
  - assert (i / E < 0) by (apply Z.div_lt_upper_bound; lia).
    replace (Z.to_nat (i / E + 1)) with 0%nat by lia. split; lia.
Qed.

(** One application of the pattern, in closed form. *)
Lemma matchAndRewrite_returns fuel p op rw :
  validWordSize op -> rngStateIsGlobal rw ->
  (iterations op < fuel)%nat ->
  matchAndRewrite fuel (p, op) rw = Returned (success, lowered p op rw).
Proof.
  intros HE Hpre Hf.
  destruct (getOrDefineGlobal_returns rw Hpre) as (g & Hg & _ & _).
  destruct (iterations_bounds op HE) as [Hlt Hge].
  pose proof (firstShift_range op) as Hr.
  unfold matchAndRewrite. simpl.
  rewrite (bind_returned _ _ _ _ _ Hg).
  rewrite (bind_returned _ _ _ _ _ (getAndUpdate_returns _ _)).
  fold (wordSizeOf op) (numElementsOf op). fold (firstShift op).
  erewrite bind_returned; cycle 1.
  { apply (packLoop_returns _ _ _ (iterations op) HE); simpl; auto; lia. }
  unfold bind, create, replaceOp, ret, lowered, loweredOps. simpl.
  rewrite <- !app_assoc. simpl.
  replace (nextAfter rw + 5 + 3 * iterations op)%nat
    with (nextAfter rw + 5 + (iterations op + (iterations op + (iterations op + 0))))%nat
    by lia.
  reflexivity.
Qed.

End Stages.

(** ** Evaluation of the emitted operations *)

Section Evaluation.

Lemma exec_app l1 l2 m :
  exec (l1 ++ l2) m = exec l1 m ≫= exec l2.
Proof.
  revert m. induction l1 as [|po l1 IH]; intros m; simpl; [reflexivity|].
  destruct (exec1 po m); simpl; auto.
Qed.

(** Load, add, store: the counter is read before it is written. *)
Lemma exec_updateOps n c m old :
  holds m old ->
  exec (updateOps n c) m
  = Some {| globals :=
              <[globalName := VInt 128 ((old + c) mod 2 ^ 128)]> (globals m);
            env :=
              <[S (S (S n)) := VInt 128 ((old + c) mod 2 ^ 128)]>
                (<[S (S n) := VInt 128 c]>
                   (<[S n := VInt 128 old]>
                      (<[n := VMemRef globalName]> (env m)))) |}.
Proof.
  unfold holds, counterOf. intros Hm.
  unfold updateOps, exec, exec1, setValue, setGlobal. simpl.
  rewrite Hm. simpl.
  rewrite lookup_insert_eq. rewrite Hm.
  simpl. rewrite lookup_insert_ne by lia. rewrite lookup_insert_eq.
  rewrite lookup_insert_eq.
  destruct (decide (128 = 128)); [|congruence].
  simpl. rewrite lookup_insert_eq.
  do 3 (rewrite lookup_insert_ne by lia). rewrite lookup_insert_eq.
  rewrite Hm. reflexivity.
Qed.

Lemma exec_pieceOps oldVal E old k :
  forall n i m,
    env m !! oldVal = Some (VInt 128 old) ->
    (oldVal < n)%nat ->
    i < 128 ->
    ((0 < k)%nat -> (Z.of_nat k - 1) * E <= i) ->
    0 < E ->
    exists m',
      exec (pieceOps oldVal (getIntegerType E) E n i k) m = Some m'
      /\ globals m' = globals m
      /\ (forall v, (v < n)%nat -> env m' !! v = env m !! v)
      /\ mapM (fun e => env m' !! e) (pieceValues n k)
         = Some (VInt E <$> chunksFrom old E i k).
Proof.
  induction k as [|k IH]; intros n i m Hold Hn Hi Hk HE.
  - exists m. simpl. auto.
  - specialize (Hk ltac:(lia)).
    assert (0 <= i) as Hi0 by nia.
    set (m1 := setValue (S (S n)) (VInt E (Z.shiftr old i mod 2 ^ E))
                 (setValue (S n) (VInt 128 (Z.shiftr old i))
                    (setValue n (VInt 128 i) m))).
    destruct (IH (S (S (S n))) (i - E) m1) as (m' & Hex & Hg & Hpres & Hmap).
    { unfold m1, setValue. simpl.
      do 3 (rewrite lookup_insert_ne by lia). exact Hold. }
    { lia. }
    { lia. }
    { intros Hpos. nia. }
    { exact HE. }
    exists m'. split; [|split; [|split]].
    + simpl. unfold exec1 at 1. simpl.
      unfold exec1 at 1. simpl.
      rewrite lookup_insert_ne by lia. rewrite Hold.
      rewrite lookup_insert_eq.
      destruct (decide (128 = 128)); [|congruence].
      destruct (Z.ltb_spec i 128); [|lia].
      simpl. rewrite lookup_insert_eq.
      exact Hex.
    + rewrite Hg. reflexivity.
    + intros v Hv. rewrite Hpres by lia. unfold m1, setValue. simpl.
      do 3 (rewrite lookup_insert_ne by lia). reflexivity.
    + simpl. rewrite Hpres by lia.
      unfold m1 at 1, setValue at 1. simpl. rewrite lookup_insert_eq.
      simpl. rewrite Hmap. reflexivity.
Qed.

Lemma firstShift_wellShaped op :
  wellShaped op ->
  firstShift op = (numElementsOf op - 1) * wordSizeOf op.
Proof.
  intros [HE HN Hfit]. unfold validWordSize in HE.
  unfold firstShift. apply to_int_small. nia.
Qed.

Lemma iterations_wellShaped op :
  wellShaped op -> iterations op = Z.to_nat (numElementsOf op).
Proof.
  intros Hwf. unfold iterations. rewrite (firstShift_wellShaped op Hwf).
  destruct Hwf as [HE HN Hfit]. unfold validWordSize in HE.
  rewrite Z.div_mul by lia. f_equal. lia.
Qed.

Lemma packed_chunksFrom value E k :
  packed value (Z.of_nat k) E
  = chunksFrom value E ((Z.of_nat k - 1) * E) k.
Proof.
  unfold packed. rewrite Nat2Z.id.
  induction k as [|k IH]; [reflexivity|].
  cbn [seq map chunksFrom]. f_equal.
  - unfold packedElement. do 2 f_equal. lia.
  - rewrite <- seq_shift, map_map.
    replace ((Z.of_nat (S k) - 1) * E - E) with ((Z.of_nat k - 1) * E) by lia.
    rewrite <- IH. apply map_ext. intros j. unfold packedElement.
    do 2 f_equal. lia.
Qed.

(** Evaluation of everything one application of the pattern emits. *)
Lemma exec_loweredOps n op m old :
  wellShaped op -> holds m old ->
  exists m',
    exec (loweredOps n op) m = Some m'
    /\ globals m'
       = <[globalName := VInt 128 ((old + deltaConstant op) mod 2 ^ 128)]>
           (globals m)
    /\ env m' !! S n = Some (VInt 128 old)
    /\ env m' !! S (n + 5 + 3 * iterations op)
       = Some (VTensor (getType op)
                 (VInt (wordSizeOf op)
                    <$> packed old (numElementsOf op) (wordSizeOf op))).
Proof.
  intros Hwf Hm.
  pose proof (firstShift_wellShaped op Hwf) as Hfs.
  pose proof (iterations_wellShaped op Hwf) as Hit.
  destruct Hwf as [HE HN Hfit]. unfold validWordSize in HE.
  set (E := wordSizeOf op) in *. set (N := numElementsOf op) in *.
  set (k := iterations op) in *.
  unfold loweredOps. fold E k.
  rewrite exec_app, (exec_updateOps n (deltaConstant op) m old Hm).
  cbn [mbind option_bind].
  match goal with |- context [exec _ ?st] => set (m1 := st) end.
  rewrite exec_app.
  destruct (exec_pieceOps (S n) E old k (n + 5) (firstShift op) m1)
    as (m2 & Hex & Hg & Hpres & Hmap).
  { unfold m1. simpl. do 2 (rewrite lookup_insert_ne by lia).
    apply lookup_insert_eq. }
  { lia. }
  { rewrite Hfs. nia. }
  { intros _. rewrite Hfs, Hit. rewrite Z2Nat.id by lia. lia. }
  { lia. }
  rewrite Hex. cbn [mbind option_bind].
  cbn [exec exec1 fst snd]. rewrite Hmap.
  cbn [setValue env globals]. rewrite lookup_insert_eq.
  eexists. split; [reflexivity|]. cbn [setValue env globals].
  split; [|split].
  - rewrite Hg. reflexivity.
  - do 2 (rewrite lookup_insert_ne by lia).
    rewrite Hpres by lia. unfold m1. cbn [env].
    do 2 (rewrite lookup_insert_ne by lia). apply lookup_insert_eq.
  - rewrite lookup_insert_eq. do 2 f_equal.
    assert (N = Z.of_nat k) as HN' by lia.
    rewrite Hfs, HN'. symmetry. f_equal. apply packed_chunksFrom.
Qed.

End Evaluation.

(** ** Bit slicing *)

Section Packing.

Lemma chunksFrom_length value E i k : length (chunksFrom value E i k) = k.
Proof. revert i. induction k; intros i; simpl; auto. Qed.

Lemma packed_length value N E : length (packed value N E) = Z.to_nat N.
Proof. unfold packed. rewrite length_map, length_seq. reflexivity. Qed.

Lemma foldl_concat E acc l :
  0 <= E ->
  foldl (fun a x => a * 2 ^ E + x) acc l
  = acc * 2 ^ (E * Z.of_nat (length l)) + concatMSF E l.
Proof.
  intros HE. unfold concatMSF. revert acc.
  induction l as [|x l IH]; intros acc.
  - simpl. rewrite Z.mul_0_r. simpl. lia.
  - cbn [foldl length]. rewrite IH, (IH (0 * 2 ^ E + x)).
    rewrite Nat2Z.inj_succ, Z.mul_succ_r, Z.pow_add_r by lia. ring.
Qed.

Lemma concatMSF_cons E x l :
  0 <= E ->
  concatMSF E (x :: l) = x * 2 ^ (E * Z.of_nat (length l)) + concatMSF E l.
Proof.
  intros HE. unfold concatMSF at 1. cbn [foldl].
  rewrite foldl_concat by lia. lia.
Qed.

(** The chunks, concatenated most significant first, are the low bits. *)
Lemma concatMSF_packed value E k :
  0 < E ->
  concatMSF E (packed value (Z.of_nat k) E)
  = value mod 2 ^ (Z.of_nat k * E).
Proof.
  intros HE. rewrite packed_chunksFrom.
  induction k as [|k IH].
  - simpl. rewrite Z.mod_1_r. reflexivity.
  - cbn [chunksFrom]. rewrite concatMSF_cons, chunksFrom_length by lia.
    replace ((Z.of_nat (S k) - 1) * E - E) with ((Z.of_nat k - 1) * E) by lia.
    rewrite IH.
    replace ((Z.of_nat (S k) - 1) * E) with (Z.of_nat k * E) by lia.
    replace (Z.of_nat (S k) * E) with (Z.of_nat k * E + E) by lia.
    rewrite Z.pow_add_r by lia.
    rewrite Z.rem_mul_r by (try apply Z.pow_nonzero; try apply Z.pow_pos_nonneg; lia).
    rewrite Z.shiftr_div_pow2 by lia.
    replace (E * Z.of_nat k) with (Z.of_nat k * E) by lia. lia.
Qed.

Lemma chunk_low_bits v1 v2 W E i :
  0 <= E -> 0 <= i -> i + E <= W ->
  v1 mod 2 ^ W = v2 mod 2 ^ W ->
  Z.shiftr v1 i mod 2 ^ E = Z.shiftr v2 i mod 2 ^ E.
Proof.
  intros HE Hi HW Hv. apply Z.bits_inj'. intros b Hb.
  destruct (Z.lt_ge_cases b E) as [HbE|HbE].
  - rewrite !Z.mod_pow2_bits_low by lia. rewrite !Z.shiftr_spec by lia.
    rewrite <- (Z.mod_pow2_bits_low v1 W (b + i)) by lia.
    rewrite <- (Z.mod_pow2_bits_low v2 W (b + i)) by lia.
    rewrite Hv. reflexivity.
  - rewrite !Z.mod_pow2_bits_high by lia. reflexivity.
Qed.

(** The packing depends on the low [N * E] bits only. *)
Lemma packed_low_bits v1 v2 N E :
  0 < E ->
  v1 mod 2 ^ (N * E) = v2 mod 2 ^ (N * E) ->
  packed v1 N E = packed v2 N E.
Proof.
  intros HE Hv. unfold packed. apply map_ext_in. intros j Hj.
  apply in_seq in Hj. unfold packedElement.
  apply (chunk_low_bits v1 v2 (N * E)); [lia|nia|nia|exact Hv].
Qed.

End Packing.

(** ** One application of the pattern, emitted and evaluated *)

Section Lowering.

Lemma pieceOps_no_store oldVal small E k :
  forall n i, Forall (fun po => isStore po.2 = false)
                     (pieceOps oldVal small E n i k).
Proof.
  induction k as [|k IH]; intros n i; simpl; [constructor|].
  repeat (constructor; [reflexivity|]). apply IH.
Qed.

Lemma loweredOps_split n op :
  exists rest,
    loweredOps n op = updateOps n (deltaConstant op) ++ rest
    /\ Forall (fun po => isStore po.2 = false) rest.
Proof.
  eexists. split; [reflexivity|].
  apply Forall_app. split; [apply pieceOps_no_store|].
  repeat (constructor; [reflexivity|]). constructor.
Qed.

Lemma resultOf_lowered p op rw m :
  resultOf (lowered p op rw) p m
  = env m !! S (nextAfter rw + 5 + 3 * iterations op).
Proof.
  unfold resultOf, replacementOf, lowered. cbn [replaced].
  rewrite lookup_insert_eq. reflexivity.
Qed.

Lemma holds_insert m m' v :
  globals m' = <[globalName := VInt 128 v]> (globals m) -> holds m' v.
Proof.
  intros H. unfold holds, counterOf. rewrite H. apply lookup_insert_eq.
Qed.

(** A well-shaped request on a module that satisfies the precondition:
    the pattern returns success, and the emitted operations evaluate. *)
Lemma lowering_runs fuel p op rw m old :
  wellShaped op -> rngStateIsGlobal rw ->
  (Z.to_nat (numElementsOf op) < fuel)%nat ->
  holds m old ->
  matchAndRewrite fuel (p, op) rw = Returned (success, lowered p op rw)
  /\ exists m',
      exec (loweredOps (nextAfter rw) op) m = Some m'
      /\ env m' !! S (nextAfter rw) = Some (VInt 128 old)
      /\ holds m' ((old + deltaConstant op) mod 2 ^ 128)
      /\ resultOf (lowered p op rw) p m'
         = Some (VTensor (getType op)
                   (VInt (wordSizeOf op)
                      <$> packed old (numElementsOf op) (wordSizeOf op))).
Proof.
  intros Hws Hpre Hf Hm. split.
  - apply matchAndRewrite_returns; [apply Hws|exact Hpre|].
    rewrite (iterations_wellShaped op Hws). exact Hf.
  - destruct (exec_loweredOps (nextAfter rw) op m old Hws Hm)
      as (m' & Hex & Hg & Hold & Hres).
    exists m'. repeat split; [exact Hex|exact Hold| |].
    + eapply holds_insert, Hg.
    + rewrite resultOf_lowered. exact Hres.
Qed.

Lemma rngStateIsGlobal_tableAfter rw :
  rngStateIsGlobal rw ->
  exists g, lookupSymbolIn (tableAfter rw) globalName = Some g
            /\ isa_GlobalOp g.2 = true.
Proof.
  intros Hpre. destruct (getOrDefineGlobal_returns rw Hpre) as (g & _ & Hl & Hk).
  eauto.
Qed.

Lemma rngStateIsGlobal_lowered p op rw :
  rngStateIsGlobal rw -> rngStateIsGlobal (lowered p op rw).
Proof.
  intros Hpre. destruct (rngStateIsGlobal_tableAfter rw Hpre) as (g & Hl & Hk).
  intros po Hpo. cbn [lowered symbolTableBody] in Hpo. congruence.
Qed.

Lemma tableAfter_found rw g :
  lookupSymbolIn (symbolTableBody rw) globalName = Some g ->
  tableAfter rw = symbolTableBody rw /\ nextAfter rw = nextOp rw.
Proof. intros H. unfold tableAfter, nextAfter. rewrite H. auto. Qed.

End Lowering.

(** ** The pattern on sample inputs *)

(** First request of a module: [delta = 5], two elements of 64 bits. *)
Example first_request_emitted :
  matchAndRewrite 3 (0%nat, request 5 2 64) emptyModule
  = Returned
      (success,
       {| symbolTableBody := [(1%nat, rngStateGlobal)];
          insertionBlock :=
            [ (2%nat, memref_GetGlobalOp memrefType "rng_state");
              (3%nat, memref_LoadOp 2%nat);
              (4%nat, arith_ConstantOp seedType 5);
              (5%nat, arith_AddIOp 3%nat 4%nat);
              (6%nat, memref_StoreOp 5%nat 2%nat);
              (7%nat, arith_ConstantOp seedType 64);
              (8%nat, arith_ShRUIOp 3%nat 7%nat);
              (9%nat, arith_TruncIOp (getIntegerType 64) 8%nat);
              (10%nat, arith_ConstantOp seedType 0);
              (11%nat, arith_ShRUIOp 3%nat 10%nat);
              (12%nat, arith_TruncIOp (getIntegerType 64) 11%nat);
              (13%nat, tensor_FromElementsOp
                         (RankedTensorType [2] (getIntegerType 64))
                         [9%nat; 12%nat]);
              (14%nat, UnrealizedConversionCastOp (tensorOf 2 64) 13%nat) ];
          replaced := {[ 0%nat := 14%nat ]};
          nextOp := 15 |}).
Proof. vm_compute. reflexivity. Qed.

Example first_request_evaluated :
  exists rw' m',
    matchAndRewrite 3 (0%nat, request 5 2 64) emptyModule
    = Returned (success, rw')
    /\ exec (insertionBlock rw')
            {| globals := initialGlobals (symbolTableBody rw'); env := ∅ |}
       = Some m'
    /\ resultOf rw' 0%nat m'
       = Some (VTensor (tensorOf 2 64) [VInt 64 0; VInt 64 0x7012395])
    /\ counterOf m' = Some (VInt 128 0x701239A).
Proof.
  eexists. eexists. split; [vm_compute; reflexivity|].
  split; [vm_compute; reflexivity|]. split; reflexivity.
Qed.

(** A shape wider than the counter: the first shift distances reach the
    operand width, where [arith.shrui] has no defined result. *)
Example overwide_shape_undefined :
  exists rw',
    matchAndRewrite 5 (0%nat, request 5 4 64) emptyModule
    = Returned (success, rw')
    /\ insertionBlock rw' !! 5%nat = Some (7%nat, arith_ConstantOp seedType 192)
    /\ exec (insertionBlock rw') (machineHolding 0x7012395) = None.
Proof.
  eexists. split; [vm_compute; reflexivity|]. split; reflexivity.
Qed.

(** A negative [int64_t] view of the increment is zero-extended, not
    sign-extended, to the 128 bits of the constant. *)
Example delta_all_ones_zero_extended :
  deltaConstant (request (2 ^ 64 - 1) 2 64) = 2 ^ 64 - 1
  /\ to_int64 (2 ^ 64 - 1) = -1.
Proof. split; reflexivity. Qed.

(** ** The update of the counter *)

(** C2. For every lowering of a request with a 64-bit increment [delta],
    run on a machine whose counter holds [old]: the emitted sequence
    starts with get_global, load, constant, addi, store, in that order, and
    no other store follows; evaluated, the load yields [old], the counter
    ends up holding [(old + delta) mod 2^128], and the value that replaces
    the request is the packing of [old], the value before the increment. *)
Theorem get_and_update_loads_then_stores fuel p op rw m old :
  wellFormed op -> rngStateIsGlobal rw ->
  (Z.to_nat (numElementsOf op) < fuel)%nat ->
  holds m old ->
  let n := nextAfter rw in
  exists rw' rest m',
    matchAndRewrite fuel (p, op) rw = Returned (success, rw')
    /\ insertionBlock rw'
       = insertionBlock rw
           ++ [ (n, memref_GetGlobalOp memrefType "rng_state");
                (S n, memref_LoadOp n);
                (S (S n), arith_ConstantOp (IntegerType 128 Signless) (delta op));
                (S (S (S n)), arith_AddIOp (S n) (S (S n)));
                (S (S (S (S n))), memref_StoreOp (S (S (S n))) n) ]
           ++ rest
    /\ Forall (fun po => isStore po.2 = false) rest
    /\ exec (drop (length (insertionBlock rw)) (insertionBlock rw')) m = Some m'
    /\ env m' !! S n = Some (VInt 128 old)
    /\ counterOf m' = Some (VInt 128 ((old + delta op) mod 2 ^ 128))
    /\ resultOf rw' p m'
       = Some (VTensor (getType op)
                 (VInt (wordSizeOf op)
                    <$> packed old (numElementsOf op) (wordSizeOf op))).
Proof.
  intros [Hd Hws] Hpre Hf Hm n.
  destruct (lowering_runs fuel p op rw m old Hws Hpre Hf Hm)
    as (Hret & m' & Hex & Hold & Hnew & Hres).
  destruct (loweredOps_split n op) as (rest & Hsplit & Hrest).
  rewrite (deltaConstant_uint64 op Hd) in *.
  exists (lowered p op rw), rest, m'.
  split; [exact Hret|]. split.
  { cbn [lowered insertionBlock]. fold n. rewrite Hsplit. reflexivity. }
  split; [exact Hrest|]. split.
  { cbn [lowered insertionBlock]. rewrite drop_app_length. exact Hex. }
  split; [exact Hold|]. split; [exact Hnew|exact Hres].
Qed.

(** Closed arithmetic facts, by evaluation. *)
Ltac by_computation :=
  vm_compute; repeat split; try reflexivity; try discriminate;
  try (intro; discriminate).

Lemma wellShaped_request d N E :
  0 < E < 2 ^ 31 -> 0 <= N -> N * E <= 128 -> wellShaped (request d N E).
Proof.
  intros HE HN Hfit.
  assert (numElementsOf (request d N E) = N) as HNe
    by (unfold numElementsOf, request, tensorOf, getNumElements;
        cbn [getType getShape foldr]; apply Z.mul_1_r).
  constructor; unfold validWordSize; rewrite ?HNe; simpl; auto.
Qed.

Lemma wellFormed_request d N E :
  0 <= d < 2 ^ 64 -> 0 < E < 2 ^ 31 -> 0 <= N -> N * E <= 128 ->
  wellFormed (request d N E).
Proof.
  intros Hd HE HN Hfit. constructor; [exact Hd|].
  apply wellShaped_request; assumption.
Qed.

Lemma rngStateIsGlobal_emptyModule : rngStateIsGlobal emptyModule.
Proof. intros po H. discriminate H. Qed.

Lemma holds_machineHolding v : holds (machineHolding v) v.
Proof. unfold holds, counterOf, machineHolding. simpl. apply lookup_singleton_eq. Qed.

Lemma get_and_update_loads_then_stores_witness :
  wellFormed (request 5 2 64)
  /\ rngStateIsGlobal emptyModule
  /\ holds (machineHolding 0x7012395) 0x7012395
  /\ exists rw' m',
      matchAndRewrite 3 (0%nat, request 5 2 64) emptyModule
      = Returned (success, rw')
      /\ exec (insertionBlock rw') (machineHolding 0x7012395) = Some m'
      /\ counterOf m' = Some (VInt 128 0x701239A).
Proof.
  assert (wellFormed (request 5 2 64)) as Hwf
    by (apply wellFormed_request; by_computation).
  split; [exact Hwf|].
  split; [exact rngStateIsGlobal_emptyModule|].
  split; [apply holds_machineHolding|].
  destruct (get_and_update_loads_then_stores 3 0%nat (request 5 2 64)
              emptyModule (machineHolding 0x7012395) 0x7012395 Hwf
              rngStateIsGlobal_emptyModule ltac:(vm_compute; lia)
              (holds_machineHolding _))
    as (rw' & rest & m' & Hret & _ & _ & Hex & _ & Hc & _).
  exists rw', m'. split; [exact Hret|]. split; [exact Hex|exact Hc].
Defined.

(** C4. For every increment [delta] the instruction carries (the
    accessor of its [delta] attribute returns a [uint64_t], so
    [0 <= delta < 2^64], a value representable in 128 bits), the constant
    materialized for the addition is a constant of the 128-bit counter
    type exactly equal to [delta], and the stored new value is
    [(old + delta) mod 2^128]. *)
Theorem delta_constant_exact_within_64_bits fuel p op rw m old :
  wellFormed op -> rngStateIsGlobal rw ->
  (Z.to_nat (numElementsOf op) < fuel)%nat ->
  holds m old ->
  exists rw' m',
    matchAndRewrite fuel (p, op) rw = Returned (success, rw')
    /\ insertionBlock rw' !! (length (insertionBlock rw) + 2)%nat
       = Some (S (S (nextAfter rw)),
               arith_ConstantOp (IntegerType 128 Signless) (delta op))
    /\ 0 <= delta op < 2 ^ 128
    /\ exec (drop (length (insertionBlock rw)) (insertionBlock rw')) m = Some m'
    /\ counterOf m' = Some (VInt 128 ((old + delta op) mod 2 ^ 128)).
Proof.
  intros [Hd Hws] Hpre Hf Hm.
  destruct (lowering_runs fuel p op rw m old Hws Hpre Hf Hm)
    as (Hret & m' & Hex & _ & Hnew & _).
  rewrite (deltaConstant_uint64 op Hd) in Hnew.
  exists (lowered p op rw), m'.
  split; [exact Hret|]. split.
  { cbn [lowered insertionBlock]. rewrite lookup_app_r by lia.
    replace (length (insertionBlock rw) + 2 - length (insertionBlock rw))%nat
      with 2%nat by lia.
    unfold loweredOps. rewrite (deltaConstant_uint64 op Hd). reflexivity. }
  split; [lia|]. split; [|exact Hnew].
  cbn [lowered insertionBlock]. rewrite drop_app_length. exact Hex.
Qed.

Lemma delta_constant_exact_within_64_bits_witness :
  wellFormed (request 0xFFFFFFFF 2 64)
  /\ rngStateIsGlobal emptyModule
  /\ holds (machineHolding 0x701239A) 0x701239A
  /\ exists rw' m',
      matchAndRewrite 3 (0%nat, request 0xFFFFFFFF 2 64) emptyModule
      = Returned (success, rw')
      /\ insertionBlock rw' !! 2%nat
         = Some (4%nat, arith_ConstantOp (IntegerType 128 Signless) 0xFFFFFFFF)
      /\ counterOf m' = Some (VInt 128 0x107012399).
Proof.
  assert (wellFormed (request 0xFFFFFFFF 2 64)) as Hwf
    by (apply wellFormed_request; by_computation).
  split; [exact Hwf|].
  split; [exact rngStateIsGlobal_emptyModule|].
  split; [apply holds_machineHolding|].
  destruct (delta_constant_exact_within_64_bits 3 0%nat
              (request 0xFFFFFFFF 2 64) emptyModule
              (machineHolding 0x701239A) 0x701239A Hwf
              rngStateIsGlobal_emptyModule ltac:(vm_compute; lia)
              (holds_machineHolding _))
    as (rw' & m' & Hret & Hc & _ & _ & Hnew).
  exists rw', m'. split; [exact Hret|]. split; [exact Hc|exact Hnew].
Defined.

(** C5. Two sequential lowerings with increments [d1] then [d2], run from
    a counter holding [V0]: the first loads [V0], replaces its request by
    the packing of [V0] and leaves the counter at [(V0 + d1) mod 2^128];
    the second loads [(V0 + d1) mod 2^128], replaces its request by the
    packing of that value and leaves the counter at
    [(V0 + d1 + d2) mod 2^128]. *)
Theorem value_threading fuel p1 op1 p2 op2 rw m V0 :
  wellFormed op1 -> wellFormed op2 -> rngStateIsGlobal rw ->
  (Z.to_nat (numElementsOf op1) < fuel)%nat ->
  (Z.to_nat (numElementsOf op2) < fuel)%nat ->
  holds m V0 ->
  let V1 := (V0 + delta op1) mod 2 ^ 128 in
  let V2 := (V0 + delta op1 + delta op2) mod 2 ^ 128 in
  exists rw1 rw2 m1 m2,
    matchAndRewrite fuel (p1, op1) rw = Returned (success, rw1)
    /\ matchAndRewrite fuel (p2, op2) rw1 = Returned (success, rw2)
    /\ applyPartialConversion fuel [(p1, op1); (p2, op2)] rw
       = Returned (success, rw2)
    /\ exec (drop (length (insertionBlock rw)) (insertionBlock rw1)) m = Some m1
    /\ exec (drop (length (insertionBlock rw1)) (insertionBlock rw2)) m1 = Some m2
    /\ exec (drop (length (insertionBlock rw)) (insertionBlock rw2)) m = Some m2
    /\ env m1 !! S (nextAfter rw) = Some (VInt 128 V0)
    /\ resultOf rw1 p1 m1
       = Some (VTensor (getType op1)
                 (VInt (wordSizeOf op1)
                    <$> packed V0 (numElementsOf op1) (wordSizeOf op1)))
    /\ counterOf m1 = Some (VInt 128 V1)
    /\ env m2 !! S (nextAfter rw1) = Some (VInt 128 V1)
    /\ resultOf rw2 p2 m2
       = Some (VTensor (getType op2)
                 (VInt (wordSizeOf op2)
                    <$> packed V1 (numElementsOf op2) (wordSizeOf op2)))
    /\ counterOf m2 = Some (VInt 128 V2).
Proof.
  intros [Hd1 Hws1] [Hd2 Hws2] Hpre Hf1 Hf2 Hm V1 V2.
  destruct (lowering_runs fuel p1 op1 rw m V0 Hws1 Hpre Hf1 Hm)
    as (Hret1 & m1 & Hex1 & Hold1 & Hnew1 & Hres1).
  rewrite (deltaConstant_uint64 op1 Hd1) in Hnew1. fold V1 in Hnew1.
  pose proof (rngStateIsGlobal_lowered p1 op1 rw Hpre) as Hpre1.
  destruct (lowering_runs fuel p2 op2 (lowered p1 op1 rw) m1 V1
              Hws2 Hpre1 Hf2 Hnew1)
    as (Hret2 & m2 & Hex2 & Hold2 & Hnew2 & Hres2).
  rewrite (deltaConstant_uint64 op2 Hd2) in Hnew2.
  assert ((V1 + delta op2) mod 2 ^ 128 = V2) as HV2.
  { unfold V1, V2. rewrite Zplus_mod_idemp_l. reflexivity. }
  rewrite HV2 in Hnew2.
  exists (lowered p1 op1 rw), (lowered p2 op2 (lowered p1 op1 rw)), m1, m2.
  split; [exact Hret1|]. split; [exact Hret2|]. split.
  { unfold applyPartialConversion. cbn [legalize].
    rewrite Hret1, Hret2. reflexivity. }
  split.
  { cbn [lowered insertionBlock]. rewrite drop_app_length. exact Hex1. }
  split.
  { cbn [lowered insertionBlock]. rewrite drop_app_length. exact Hex2. }
  split.
  { cbn [lowered insertionBlock]. rewrite <- app_assoc, drop_app_length.
    rewrite exec_app, Hex1. exact Hex2. }
  split; [exact Hold1|]. split; [exact Hres1|]. split; [exact Hnew1|].
  split; [exact Hold2|]. split; [exact Hres2|exact Hnew2].
Qed.

Lemma value_threading_witness :
  wellFormed (request 5 2 64)
  /\ wellFormed (request 0xFFFFFFFF 1 64)
  /\ rngStateIsGlobal emptyModule
  /\ holds (machineHolding 0x7012395) 0x7012395
  /\ exists rw2 m2,
      applyPartialConversion 3 [(0%nat, request 5 2 64);
                                (1%nat, request 0xFFFFFFFF 1 64)] emptyModule
      = Returned (success, rw2)
      /\ exec (insertionBlock rw2) (machineHolding 0x7012395) = Some m2
      /\ counterOf m2 = Some (VInt 128 0x107012399).
Proof.
  assert (wellFormed (request 5 2 64)) as Hwf1
    by (apply wellFormed_request; by_computation).
  assert (wellFormed (request 0xFFFFFFFF 1 64)) as Hwf2
    by (apply wellFormed_request; by_computation).
  split; [exact Hwf1|]. split; [exact Hwf2|].
  split; [exact rngStateIsGlobal_emptyModule|].
  split; [apply holds_machineHolding|].
  destruct (value_threading 3 0%nat (request 5 2 64) 1%nat
              (request 0xFFFFFFFF 1 64) emptyModule
              (machineHolding 0x7012395) 0x7012395 Hwf1 Hwf2
              rngStateIsGlobal_emptyModule
              ltac:(vm_compute; lia) ltac:(vm_compute; lia)
              (holds_machineHolding _))
    as (rw1 & rw2 & m1 & m2 & _ & _ & Hapc & _ & _ & Hex & _ & _ & _ & _ & _ & Hc).
  exists rw2, m2. split; [exact Hapc|]. split; [exact Hex|exact Hc].
Defined.

(** ** The packing of the result *)

Lemma packed_lookup value N E j :
  (j < Z.to_nat N)%nat ->
  packed value N E !! j
  = Some (Z.shiftr value ((N - 1 - Z.of_nat j) * E) mod 2 ^ E).
Proof.
  intros Hj. unfold packed.
  change (map (packedElement value N E) (seq 0 (Z.to_nat N)))
    with (packedElement value N E <$> seq 0 (Z.to_nat N)).
  rewrite list_lookup_fmap, lookup_seq_lt by exact Hj. reflexivity.
Qed.

(** C3. For every 128-bit [value] held by the counter, every element
    count [N] in {0,1,2,4} and element width [E] in {8,16,32,64} with
    [N * E <= 128], the value that replaces the request is the
    [N]-element tensor whose element [j] (most significant first) is
    [(value >> ((N-1-j) * E)) mod 2^E], and the elements concatenated
    most significant first are the low [N * E] bits of [value]. *)
Theorem packing_most_significant_first fuel p op rw m value :
  let N := numElementsOf op in
  let E := wordSizeOf op in
  0 <= value < 2 ^ 128 ->
  In N [0; 1; 2; 4] -> In E [8; 16; 32; 64] -> N * E <= 128 ->
  rngStateIsGlobal rw -> (Z.to_nat N < fuel)%nat -> holds m value ->
  exists rw' m' elements,
    matchAndRewrite fuel (p, op) rw = Returned (success, rw')
    /\ exec (drop (length (insertionBlock rw)) (insertionBlock rw')) m = Some m'
    /\ resultOf rw' p m' = Some (VTensor (getType op) (VInt E <$> elements))
    /\ length elements = Z.to_nat N
    /\ (forall j, (j < Z.to_nat N)%nat ->
                  elements !! j
                  = Some (Z.shiftr value ((N - 1 - Z.of_nat j) * E) mod 2 ^ E))
    /\ concatMSF E elements = value mod 2 ^ (N * E).
Proof.
  intros N E _ HN HE Hfit Hpre Hf Hm.
  assert (0 < E < 2 ^ 31) as HE'.
  { simpl in HE. assert (2 ^ 31 = 2147483648) as -> by reflexivity.
    intuition lia. }
  assert (0 <= N) as HN' by (simpl in HN; intuition lia).
  assert (wellShaped op) as Hws by (constructor; assumption).
  destruct (lowering_runs fuel p op rw m value Hws Hpre Hf Hm)
    as (Hret & m' & Hex & _ & _ & Hres).
  exists (lowered p op rw), m', (packed value N E).
  split; [exact Hret|]. split.
  { cbn [lowered insertionBlock]. rewrite drop_app_length. exact Hex. }
  split; [exact Hres|]. split; [apply packed_length|].
  split; [intros j Hj; apply packed_lookup; exact Hj|].
  rewrite <- (Z2Nat.id N) by lia. apply concatMSF_packed. lia.
Qed.

Lemma packing_most_significant_first_witness :
  0 <= 0x0123456789ABCDEFFEDCBA9876543210 < 2 ^ 128
  /\ In (numElementsOf (request 5 2 64)) [0; 1; 2; 4]
  /\ In (wordSizeOf (request 5 2 64)) [8; 16; 32; 64]
  /\ numElementsOf (request 5 2 64) * wordSizeOf (request 5 2 64) <= 128
  /\ exists rw' m',
      matchAndRewrite 3 (0%nat, request 5 2 64) emptyModule
      = Returned (success, rw')
      /\ exec (insertionBlock rw')
              (machineHolding 0x0123456789ABCDEFFEDCBA9876543210) = Some m'
      /\ resultOf rw' 0%nat m'
         = Some (VTensor (tensorOf 2 64)
                   [VInt 64 0x0123456789ABCDEF; VInt 64 0xFEDCBA9876543210]).
Proof.
  split; [by_computation|].
  split; [vm_compute; auto|]. split; [vm_compute; auto 6|].
  split; [by_computation|].
  destruct (packing_most_significant_first 3 0%nat (request 5 2 64)
              emptyModule (machineHolding 0x0123456789ABCDEFFEDCBA9876543210)
              0x0123456789ABCDEFFEDCBA9876543210
              ltac:(by_computation) ltac:(vm_compute; auto)
              ltac:(vm_compute; auto 6) ltac:(by_computation)
              rngStateIsGlobal_emptyModule ltac:(vm_compute; lia)
              (holds_machineHolding _))
    as (rw' & m' & elements & Hret & Hex & Hres & Hlen & Hel & _).
  exists rw', m'. split; [exact Hret|]. split; [exact Hex|].
  rewrite Hres. do 2 f_equal.
  destruct elements as [|e0 [|e1 [|e2 elements]]]; try discriminate Hlen.
  pose proof (Hel 0%nat ltac:(vm_compute; lia)) as H0.
  pose proof (Hel 1%nat ltac:(vm_compute; lia)) as H1.
  vm_compute in H0, H1. injection H0 as ->. injection H1 as ->.
  reflexivity.
Defined.

(** C6. For every [N] and [E] with [N * E < 128] and any two counter
    values that agree on their low [N * E] bits, the values that replace
    the request are identical: bits at positions [>= N * E] have no
    influence on the packed output. *)
Theorem truncation_ignores_high_bits fuel p op rw m1 m2 v1 v2 :
  let N := numElementsOf op in
  let E := wordSizeOf op in
  validWordSize op -> 0 <= N -> N * E < 128 ->
  rngStateIsGlobal rw -> (Z.to_nat N < fuel)%nat ->
  holds m1 v1 -> holds m2 v2 ->
  v1 mod 2 ^ (N * E) = v2 mod 2 ^ (N * E) ->
  exists rw' m1' m2' r,
    matchAndRewrite fuel (p, op) rw = Returned (success, rw')
    /\ exec (drop (length (insertionBlock rw)) (insertionBlock rw')) m1 = Some m1'
    /\ exec (drop (length (insertionBlock rw)) (insertionBlock rw')) m2 = Some m2'
    /\ resultOf rw' p m1' = Some r
    /\ resultOf rw' p m2' = Some r.
Proof.
  intros N E HE HN Hfit Hpre Hf Hm1 Hm2 Hv.
  assert (wellShaped op) as Hws by (constructor; try assumption; fold N E; lia).
  destruct (lowering_runs fuel p op rw m1 v1 Hws Hpre Hf Hm1)
    as (Hret & m1' & Hex1 & _ & _ & Hres1).
  destruct (lowering_runs fuel p op rw m2 v2 Hws Hpre Hf Hm2)
    as (_ & m2' & Hex2 & _ & _ & Hres2).
  exists (lowered p op rw), m1', m2'. eexists.
  split; [exact Hret|]. cbn [lowered insertionBlock].
  rewrite drop_app_length.
  split; [exact Hex1|]. split; [exact Hex2|]. split; [exact Hres1|].
  rewrite Hres2. do 3 f_equal. symmetry.
  apply packed_low_bits; [apply HE|exact Hv].
Qed.

Lemma truncation_ignores_high_bits_witness :
  validWordSize (request 5 1 64)
  /\ numElementsOf (request 5 1 64) * wordSizeOf (request 5 1 64) < 128
  /\ (2 ^ 64 + 7) mod 2 ^ (numElementsOf (request 5 1 64)
                           * wordSizeOf (request 5 1 64))
     = 7 mod 2 ^ (numElementsOf (request 5 1 64) * wordSizeOf (request 5 1 64))
  /\ exists rw' m1' m2' r,
      matchAndRewrite 3 (0%nat, request 5 1 64) emptyModule
      = Returned (success, rw')
      /\ exec (insertionBlock rw') (machineHolding (2 ^ 64 + 7)) = Some m1'
      /\ exec (insertionBlock rw') (machineHolding 7) = Some m2'
      /\ resultOf rw' 0%nat m1' = Some r
      /\ resultOf rw' 0%nat m2' = Some r.
Proof.
  split; [by_computation|]. split; [by_computation|].
  split; [by_computation|].
  exact (truncation_ignores_high_bits 3 0%nat (request 5 1 64) emptyModule
           (machineHolding (2 ^ 64 + 7)) (machineHolding 7) (2 ^ 64 + 7) 7
           ltac:(by_computation) ltac:(by_computation) ltac:(by_computation)
           rngStateIsGlobal_emptyModule ltac:(vm_compute; lia)
           (holds_machineHolding _) (holds_machineHolding _)
           ltac:(by_computation)).
Defined.

(** C8. For element count [N = 0] and any element width the loop counter
    can hold, the loop test fails at once: the loop returns its pieces and
    the rewriter unchanged, the tensor is built from no elements, and the
    value that replaces the request is the empty tensor. *)
Theorem zero_elements_zero_iterations fuel p op rw :
  let E := wordSizeOf op in
  let n := nextAfter rw in
  numElementsOf op = 0 -> validWordSize op ->
  rngStateIsGlobal rw -> (0 < fuel)%nat ->
  (forall oldVal pieces rw0,
      packLoop fuel oldVal (getIntegerType E) E
               (to_int ((numElementsOf op - 1) * E)) pieces rw0
      = Returned (pieces, rw0))
  /\ exists rw',
      matchAndRewrite fuel (p, op) rw = Returned (success, rw')
      /\ insertionBlock rw'
         = insertionBlock rw
             ++ updateOps n (deltaConstant op)
             ++ [ ((n + 5)%nat,
                   tensor_FromElementsOp
                     (RankedTensorType (getShape (getType op))
                                       (getIntegerType E)) []);
                  ((n + 6)%nat,
                   UnrealizedConversionCastOp (getType op) (n + 5)%nat) ]
      /\ forall m old,
          holds m old ->
          exists m',
            exec (drop (length (insertionBlock rw)) (insertionBlock rw')) m
            = Some m'
            /\ resultOf rw' p m' = Some (VTensor (getType op) []).
Proof.
  intros E n HN HE Hpre Hf.
  assert (wellShaped op) as Hws.
  { constructor; [exact HE|rewrite HN; lia|rewrite HN; lia]. }
  pose proof (iterations_wellShaped op Hws) as Hit. rewrite HN in Hit.
  change (Z.to_nat 0) with 0%nat in Hit.
  split.
  - intros oldVal pieces rw0. destruct fuel as [|fuel]; [lia|].
    cbn [packLoop]. rewrite HN. unfold validWordSize in HE. fold E in HE.
    rewrite to_int_small by lia.
    destruct (Z.leb_spec 0 ((0 - 1) * E)); [lia|]. reflexivity.
  - exists (lowered p op rw). split.
    { apply matchAndRewrite_returns; [exact HE|exact Hpre|lia]. }
    split.
    { cbn [lowered insertionBlock]. fold n. unfold loweredOps. rewrite Hit.
      cbn [pieceOps pieceValues app]. fold E.
      replace (n + 5 + 3 * 0)%nat with (n + 5)%nat by lia.
      replace (S (n + 5)) with (n + 6)%nat by lia. reflexivity. }
    intros m old Hm.
    destruct (lowering_runs fuel p op rw m old Hws Hpre
                ltac:(rewrite HN; exact Hf) Hm)
      as (_ & m' & Hex & _ & _ & Hres).
    exists m'. cbn [lowered insertionBlock]. rewrite drop_app_length.
    split; [exact Hex|]. rewrite Hres, HN. reflexivity.
Qed.

Lemma zero_elements_zero_iterations_witness :
  numElementsOf (request 5 0 64) = 0
  /\ validWordSize (request 5 0 64)
  /\ rngStateIsGlobal emptyModule
  /\ exists rw',
      matchAndRewrite 1 (0%nat, request 5 0 64) emptyModule
      = Returned (success, rw')
      /\ length (insertionBlock rw') = 7%nat.
Proof.
  split; [reflexivity|]. split; [by_computation|].
  split; [exact rngStateIsGlobal_emptyModule|].
  destruct (zero_elements_zero_iterations 1 0%nat (request 5 0 64) emptyModule
              ltac:(reflexivity) ltac:(by_computation)
              rngStateIsGlobal_emptyModule ltac:(lia))
    as (_ & rw' & Hret & Hblock & _).
  exists rw'. split; [exact Hret|]. rewrite Hblock. reflexivity.
Defined.

(** ** Outcomes of the pattern *)

Section Abort.

Lemma packLoop_no_assertion fuel oldVal small E :
  forall i pieces rw message,
    packLoop fuel oldVal small E i pieces rw <> AssertionFailed message.
Proof.
  induction fuel as [|fuel IH]; intros i pieces rw message; simpl.
  - discriminate.
  - destruct (0 <=? i); [|discriminate].
    unfold bind at 1 2 3. unfold create at 1 2 3. simpl. apply IH.
Qed.

Lemma matchAndRewrite_after_global fuel p op rw g rw0 :
  getOrDefineGlobal rw = Returned (g, rw0) ->
  (exists rw', matchAndRewrite fuel (p, op) rw = Returned (success, rw'))
  \/ matchAndRewrite fuel (p, op) rw = OutOfFuel.
Proof.
  intros Hg. remember (matchAndRewrite fuel (p, op) rw) as r eqn:Hr.
  unfold matchAndRewrite in Hr. cbn [fst snd] in Hr.
  rewrite (bind_returned _ _ _ _ _ Hg) in Hr.
  rewrite (bind_returned _ _ _ _ _ (getAndUpdate_returns _ _)) in Hr.
  unfold bind at 1 in Hr.
  match type of Hr with context [packLoop ?f ?o ?s ?e ?i ?ps ?r] =>
    pose proof (packLoop_no_assertion f o s e i ps r) as Hna;
    destruct (packLoop f o s e i ps r) as [[pieces rw1]|message|]
  end.
  - left. unfold bind, create, replaceOp, ret in Hr. cbn in Hr.
    eexists. exact Hr.
  - exfalso. eapply Hna. reflexivity.
  - right. exact Hr.
Qed.

End Abort.

Section Builds.

Lemma matchAndRewriteIn_assertions fuel op rw :
  matchAndRewriteIn false fuel op rw = matchAndRewrite fuel op rw.
Proof. reflexivity. Qed.

Lemma legalizeIn_assertions fuel ops :
  forall rw, legalizeIn false fuel ops rw = legalize fuel ops rw.
Proof.
  induction ops as [|op ops IH]; intros rw; [reflexivity|].
  cbn [legalizeIn legalize]. rewrite matchAndRewriteIn_assertions.
  destruct (matchAndRewrite fuel op rw) as [[[|] rw']|message|]; auto.
Qed.

Lemma runOnOperationIn_assertions fuel ops rw :
  runOnOperationIn false fuel ops rw = runOnOperation fuel ops rw.
Proof.
  unfold runOnOperationIn, runOnOperation, bind.
  unfold applyPartialConversionIn, applyPartialConversion.
  rewrite legalizeIn_assertions. reflexivity.
Qed.

(** Under the precondition the check passes, so both builds do the same. *)
Lemma getOrDefineGlobalIn_precondition NDEBUG rw :
  rngStateIsGlobal rw ->
  getOrDefineGlobalIn NDEBUG rw = getOrDefineGlobal rw.
Proof.
  intros Hpre. destruct NDEBUG; [|reflexivity].
  unfold getOrDefineGlobalIn, getOrDefineGlobal, bind, lookupNearestSymbolFrom.
  destruct (lookupSymbolIn (symbolTableBody rw) globalName) as [po|] eqn:Hl.
  - unfold ret, assertIn, assert. rewrite (Hpre po Hl). reflexivity.
  - reflexivity.
Qed.

Lemma matchAndRewriteIn_precondition NDEBUG fuel op rw :
  rngStateIsGlobal rw ->
  matchAndRewriteIn NDEBUG fuel op rw = matchAndRewrite fuel op rw.
Proof.
  intros Hpre. unfold matchAndRewriteIn, matchAndRewrite.
  unfold bind at 1. unfold bind at 7.
  rewrite (getOrDefineGlobalIn_precondition NDEBUG rw Hpre). reflexivity.
Qed.

(** Without the check the find-or-create step returns whatever symbol the
    lookup found. *)
Lemma getOrDefineGlobalIn_NDEBUG rw :
  exists g,
    getOrDefineGlobalIn true rw
    = Returned (g, {| symbolTableBody := tableAfter rw;
                      insertionBlock := insertionBlock rw;
                      replaced := replaced rw;
                      nextOp := nextAfter rw |}).
Proof.
  unfold getOrDefineGlobalIn, bind, lookupNearestSymbolFrom.
  unfold tableAfter, nextAfter.
  destruct (lookupSymbolIn (symbolTableBody rw) globalName) as [po|] eqn:Hl.
  - exists po. destruct rw; reflexivity.
  - eexists. reflexivity.
Qed.

Lemma matchAndRewriteIn_NDEBUG_returns fuel p op rw :
  validWordSize op -> (iterations op < fuel)%nat ->
  matchAndRewriteIn true fuel (p, op) rw = Returned (success, lowered p op rw).
Proof.
  intros HE Hf.
  destruct (getOrDefineGlobalIn_NDEBUG rw) as (g & Hg).
  destruct (iterations_bounds op HE) as [Hlt Hge].
  pose proof (firstShift_range op) as Hr.
  unfold matchAndRewriteIn. simpl.
  rewrite (bind_returned _ _ _ _ _ Hg).
  rewrite (bind_returned _ _ _ _ _ (getAndUpdate_returns _ _)).
  fold (wordSizeOf op) (numElementsOf op). fold (firstShift op).
  erewrite bind_returned; cycle 1.
  { apply (packLoop_returns _ _ _ (iterations op) HE); simpl; auto; lia. }
  unfold bind, create, replaceOp, ret, lowered, loweredOps. simpl.
  rewrite <- !app_assoc. simpl.
  replace (nextAfter rw + 5 + 3 * iterations op)%nat
    with (nextAfter rw + 5 + (iterations op + (iterations op + (iterations op + 0))))%nat
    by lia.
  reflexivity.
Qed.

End Builds.

(** C9, as stated, fails: the check of lines 73-74 is an [assert], which a
    build with [NDEBUG] compiles out. There, on a module in which
    [rng_state] names a function, the pattern does not stop: it returns
    success, leaves the symbol table as it is and emits a
    [memref.get_global] of the function's symbol, and the pass succeeds. *)
Lemma foreign_rng_state_proceeds_without_assertions :
  lookupSymbolIn (symbolTableBody moduleWithFunction) "rng_state"
  = Some (0%nat, func_FuncOp "rng_state")
  /\ isa_GlobalOp (func_FuncOp "rng_state") = false
  /\ exists rw',
      matchAndRewriteIn true 3 (1%nat, request 5 2 64) moduleWithFunction
      = Returned (success, rw')
      /\ runOnOperationIn true 3 [(1%nat, request 5 2 64)] moduleWithFunction
         = Returned (passSucceeded, rw')
      /\ symbolTableBody rw' = [(0%nat, func_FuncOp "rng_state")]
      /\ insertionBlock rw' !! 0%nat
         = Some (1%nat, memref_GetGlobalOp memrefType "rng_state").
Proof.
  split; [reflexivity|]. split; [reflexivity|].
  eexists. split; [vm_compute; reflexivity|].
  split; [vm_compute; reflexivity|]. split; reflexivity.
Qed.

(** C9, amended. If a symbol [rng_state] exists in the symbol table and is
    not a memref global, then in a build with assertions enabled the
    pattern stops at the assertion: it returns no result and no rewriter,
    and the pass stops with it whatever requests remain; in a build with
    [NDEBUG] the check is absent and the pattern goes on without repair,
    returning success with the symbol table unchanged and a
    [memref.get_global] of that symbol emitted. If every existing
    [rng_state] symbol is a memref global, the assertion cannot fail, and
    both builds do the same. *)
Theorem foreign_rng_state_aborts_with_assertions NDEBUG fuel p op rw :
  (forall po rest,
      lookupSymbolIn (symbolTableBody rw) "rng_state" = Some po ->
      isa_GlobalOp po.2 = false ->
      (NDEBUG = false ->
       matchAndRewriteIn NDEBUG fuel (p, op) rw
       = AssertionFailed
           "rng_state was defined somewhere else, not as a global op"
       /\ runOnOperationIn NDEBUG fuel ((p, op) :: rest) rw
          = AssertionFailed
              "rng_state was defined somewhere else, not as a global op")
      /\ (NDEBUG = true -> validWordSize op -> (iterations op < fuel)%nat ->
          exists rw',
            matchAndRewriteIn NDEBUG fuel (p, op) rw = Returned (success, rw')
            /\ symbolTableBody rw' = symbolTableBody rw
            /\ insertionBlock rw' !! length (insertionBlock rw)
               = Some (nextOp rw, memref_GetGlobalOp memrefType "rng_state")))
  /\ (rngStateIsGlobal rw ->
      (forall message,
          matchAndRewriteIn NDEBUG fuel (p, op) rw <> AssertionFailed message)
      /\ matchAndRewriteIn NDEBUG fuel (p, op) rw
         = matchAndRewrite fuel (p, op) rw).
Proof.
  split.
  - intros po rest Hl Hk. fold globalName in Hl. split.
    + intros ->.
      assert (matchAndRewriteIn false fuel (p, op) rw
              = AssertionFailed
                  "rng_state was defined somewhere else, not as a global op")
        as Habort.
      { rewrite matchAndRewriteIn_assertions. unfold matchAndRewrite.
        apply bind_assertion. apply (getOrDefineGlobal_foreign rw po Hl Hk). }
      split; [exact Habort|].
      unfold runOnOperationIn, bind, applyPartialConversionIn.
      cbn [legalizeIn]. rewrite Habort. reflexivity.
    + intros -> HE Hf. exists (lowered p op rw).
      split; [apply matchAndRewriteIn_NDEBUG_returns; assumption|].
      destruct (tableAfter_found rw po Hl) as [Ht Hn].
      cbn [lowered symbolTableBody insertionBlock]. split; [exact Ht|].
      rewrite lookup_app_r by lia. rewrite Nat.sub_diag, Hn. reflexivity.
  - intros Hpre.
    pose proof (matchAndRewriteIn_precondition NDEBUG fuel (p, op) rw Hpre)
      as Hsame.
    split; [|exact Hsame]. intros message. rewrite Hsame.
    destruct (getOrDefineGlobal_returns rw Hpre) as (g & Hg & _ & _).
    destruct (matchAndRewrite_after_global fuel p op rw _ _ Hg)
      as [[rw' ->]| ->]; discriminate.
Qed.

Lemma foreign_rng_state_aborts_with_assertions_witness :
  lookupSymbolIn (symbolTableBody moduleWithFunction) "rng_state"
  = Some (0%nat, func_FuncOp "rng_state")
  /\ isa_GlobalOp (func_FuncOp "rng_state") = false
  /\ runOnOperationIn false 3 [(1%nat, request 5 2 64); (2%nat, request 7 2 64)]
                      moduleWithFunction
     = AssertionFailed
         "rng_state was defined somewhere else, not as a global op"
  /\ rngStateIsGlobal emptyModule
  /\ matchAndRewriteIn true 3 (0%nat, request 5 2 64) emptyModule
     <> AssertionFailed
          "rng_state was defined somewhere else, not as a global op".
Proof.
  split; [reflexivity|]. split; [reflexivity|]. split.
  - exact (proj2 (proj1 (proj1 (foreign_rng_state_aborts_with_assertions
                                  false 3 1%nat (request 5 2 64)
                                  moduleWithFunction)
                           (0%nat, func_FuncOp "rng_state")
                           [(2%nat, request 7 2 64)] eq_refl eq_refl)
                    eq_refl)).
  - split; [exact rngStateIsGlobal_emptyModule|].
    exact (proj1 (proj2 (foreign_rng_state_aborts_with_assertions
                           true 3 0%nat (request 5 2 64) emptyModule)
                    rngStateIsGlobal_emptyModule) _).
Defined.

(** C10. [matchAndRewrite] has no path that returns failure: whatever the
    request, the rewriter and the fuel, it never returns [failure]; and for
    every request whose element width the loop counter can hold, on a
    module that satisfies the precondition, it returns [success]. *)
Theorem matchAndRewrite_never_fails fuel p op rw :
  (forall rw', matchAndRewrite fuel (p, op) rw <> Returned (failure, rw'))
  /\ (validWordSize op -> rngStateIsGlobal rw ->
      (iterations op < fuel)%nat ->
      exists rw', matchAndRewrite fuel (p, op) rw = Returned (success, rw')).
Proof.
  split.
  - destruct (getOrDefineGlobal rw) as [[g rw0]|message|] eqn:Hg.
    + intros rw'.
      destruct (matchAndRewrite_after_global fuel p op rw g rw0 Hg)
        as [[rw1 ->]| ->]; discriminate.
    + intros rw'. unfold matchAndRewrite.
      rewrite (bind_assertion _ _ _ _ Hg). discriminate.
    + intros rw'. unfold matchAndRewrite, bind at 1. rewrite Hg. discriminate.
  - intros HE Hpre Hf. exists (lowered p op rw).
    apply matchAndRewrite_returns; assumption.
Qed.

Lemma matchAndRewrite_never_fails_witness :
  validWordSize (request 5 2 64)
  /\ rngStateIsGlobal emptyModule
  /\ (iterations (request 5 2 64) < 3)%nat
  /\ exists rw',
      matchAndRewrite 3 (0%nat, request 5 2 64) emptyModule
      = Returned (success, rw').
Proof.
  split; [by_computation|]. split; [exact rngStateIsGlobal_emptyModule|].
  split; [vm_compute; lia|].
  exact (proj2 (matchAndRewrite_never_fails 3 0%nat (request 5 2 64)
                  emptyModule)
           ltac:(by_computation) rngStateIsGlobal_emptyModule
           ltac:(vm_compute; lia)).
Defined.

(** ** The symbol table across several applications *)

Section SymbolTable.

Lemma countGlobal_le_countSymbol s body :
  (countGlobal s body <= countSymbol s body)%nat.
Proof.
  unfold countGlobal, countSymbol.
  induction body as [|po body IH]; [reflexivity|].
  rewrite !filter_cons.
  destruct (decide (getNameIfSymbol po.2 = Some s /\ isa_GlobalOp po.2 = true))
    as [[Hn _]|Hn].
  - destruct (decide (getNameIfSymbol po.2 = Some s)); [|contradiction].
    simpl. lia.
  - destruct (decide (getNameIfSymbol po.2 = Some s)); simpl; lia.
Qed.

Lemma lookupSymbolIn_None_count s body :
  lookupSymbolIn body s = None -> countSymbol s body = 0%nat.
Proof.
  unfold countSymbol. induction body as [|po body IH]; [reflexivity|].
  simpl. rewrite filter_cons.
  destruct (decide (getNameIfSymbol po.2 = Some s)); [discriminate|].
  exact IH.
Qed.

Lemma lookupSymbolIn_Some_count s body g :
  lookupSymbolIn body s = Some g -> isa_GlobalOp g.2 = true ->
  (countSymbol s body <= 1)%nat ->
  countGlobal s body = 1%nat /\ countSymbol s body = 1%nat.
Proof.
  intros Hl Hk. pose proof (countGlobal_le_countSymbol s body) as Hle.
  revert Hl Hle. unfold countGlobal, countSymbol.
  induction body as [|po body IH]; [discriminate|].
  simpl. rewrite !filter_cons.
  destruct (decide (getNameIfSymbol po.2 = Some s)) as [Hn|Hn].
  - intros [= ->].
    destruct (decide (getNameIfSymbol g.2 = Some s /\ isa_GlobalOp g.2 = true))
      as [_|Hno]; [|exfalso; auto].
    simpl. lia.
  - destruct (decide (getNameIfSymbol po.2 = Some s /\ isa_GlobalOp po.2 = true))
      as [[Hn' _]|_]; [contradiction|].
    intros Hl Hle Hc. apply IH; assumption.
Qed.

Lemma count_tableAfter rw :
  rngStateIsGlobal rw ->
  (countSymbol globalName (symbolTableBody rw) <= 1)%nat ->
  countGlobal globalName (tableAfter rw) = 1%nat
  /\ countSymbol globalName (tableAfter rw) = 1%nat.
Proof.
  intros Hpre Hc. unfold tableAfter.
  destruct (lookupSymbolIn (symbolTableBody rw) globalName) as [g|] eqn:Hl.
  - apply (lookupSymbolIn_Some_count _ _ g Hl (Hpre g Hl) Hc).
  - pose proof (lookupSymbolIn_None_count _ _ Hl) as H0.
    pose proof (countGlobal_le_countSymbol globalName (symbolTableBody rw)).
    unfold countGlobal, countSymbol in *. rewrite !filter_cons.
    destruct (decide _) as [_|Hno]; [|exfalso; apply Hno; split; reflexivity].
    destruct (decide _) as [_|Hno]; [|exfalso; apply Hno; reflexivity].
    simpl. lia.
Qed.

(** Once [rng_state] is found, further applications leave the symbol
    table as it is. *)
Lemma legalize_found fuel ops :
  forall rw g,
    lookupSymbolIn (symbolTableBody rw) globalName = Some g ->
    isa_GlobalOp g.2 = true ->
    Forall (fun po => validWordSize po.2) ops ->
    Forall (fun po => (iterations po.2 < fuel)%nat) ops ->
    exists rw',
      legalize fuel ops rw = Returned (success, rw')
      /\ symbolTableBody rw' = symbolTableBody rw.
Proof.
  induction ops as [|[p op] ops IH]; intros rw g Hl Hk Hv Hf.
  - exists rw. split; reflexivity.
  - apply Forall_cons in Hv as [Hv1 Hv]. apply Forall_cons in Hf as [Hf1 Hf].
    assert (rngStateIsGlobal rw) as Hpre by (intros po Hpo; congruence).
    destruct (tableAfter_found rw g Hl) as [Ht _].
    destruct (IH (lowered p op rw) g) as (rw' & Hret & Htab); try assumption.
    { cbn [lowered symbolTableBody]. rewrite Ht. exact Hl. }
    exists rw'. cbn [legalize].
    rewrite (matchAndRewrite_returns fuel p op rw Hv1 Hpre Hf1).
    split; [exact Hret|]. rewrite Htab. exact Ht.
Qed.

(** At least one application: the symbol table becomes [tableAfter]. *)
Lemma applyPartialConversion_returns fuel ops rw :
  rngStateIsGlobal rw -> ops <> [] ->
  Forall (fun po => validWordSize po.2) ops ->
  Forall (fun po => (iterations po.2 < fuel)%nat) ops ->
  exists rw',
    applyPartialConversion fuel ops rw = Returned (success, rw')
    /\ symbolTableBody rw' = tableAfter rw.
Proof.
  intros Hpre Hne Hv Hf. destruct ops as [|[p op] ops]; [contradiction|].
  apply Forall_cons in Hv as [Hv1 Hv]. apply Forall_cons in Hf as [Hf1 Hf].
  destruct (rngStateIsGlobal_tableAfter rw Hpre) as (g & Hl & Hk).
  destruct (legalize_found fuel ops (lowered p op rw) g)
    as (rw' & Hret & Htab); try assumption.
  exists rw'. unfold applyPartialConversion. cbn [legalize].
  rewrite (matchAndRewrite_returns fuel p op rw Hv1 Hpre Hf1).
  rewrite Hret. split; [reflexivity|exact Htab].
Qed.

Lemma runOnOperation_succeeds fuel ops rw rw' :
  applyPartialConversion fuel ops rw = Returned (success, rw') ->
  runOnOperation fuel ops rw = Returned (passSucceeded, rw').
Proof. intros H. unfold runOnOperation, bind. rewrite H. reflexivity. Qed.

End SymbolTable.

(** C1. For every module in which [rng_state] names at most one symbol,
    and that a memref global, and for every number [K >= 1] of lowered
    requests, the pass leaves exactly one global named [rng_state]: the
    global is created only when the lookup finds no symbol of that name,
    and after every non-empty prefix of the lowerings the find-or-create
    step returns the same definition and creates nothing. *)
Theorem rng_state_singleton fuel ops rw :
  rngStateIsGlobal rw ->
  (countSymbol "rng_state" (symbolTableBody rw) <= 1)%nat ->
  ops <> [] ->
  Forall (fun po => validWordSize po.2) ops ->
  Forall (fun po => (iterations po.2 < fuel)%nat) ops ->
  exists rw' g,
    runOnOperation fuel ops rw = Returned (passSucceeded, rw')
    /\ countGlobal "rng_state" (symbolTableBody rw') = 1%nat
    /\ countSymbol "rng_state" (symbolTableBody rw') = 1%nat
    /\ symbolTableBody rw'
       = match lookupSymbolIn (symbolTableBody rw) "rng_state" with
         | Some _ => symbolTableBody rw
         | None => (nextOp rw, rngStateGlobal) :: symbolTableBody rw
         end
    /\ (forall pre post,
           ops = pre ++ post -> pre <> [] ->
           exists rw1,
             applyPartialConversion fuel pre rw = Returned (success, rw1)
             /\ getOrDefineGlobal rw1 = Returned (g, rw1)).
Proof.
  intros Hpre Hc Hne Hv Hf.
  destruct (applyPartialConversion_returns fuel ops rw Hpre Hne Hv Hf)
    as (rw' & Hret & Htab).
  destruct (rngStateIsGlobal_tableAfter rw Hpre) as (g & Hl & Hk).
  destruct (count_tableAfter rw Hpre Hc) as [Hcg Hcs].
  exists rw', g. split; [apply runOnOperation_succeeds, Hret|]. rewrite Htab.
  split; [exact Hcg|]. split; [exact Hcs|]. split; [reflexivity|].
  intros pre post -> Hpne.
  apply Forall_app in Hv as [Hv _]. apply Forall_app in Hf as [Hf _].
  destruct (applyPartialConversion_returns fuel pre rw Hpre Hpne Hv Hf)
    as (rw1 & Hret1 & Htab1).
  exists rw1. split; [exact Hret1|].
  apply getOrDefineGlobal_found; [rewrite Htab1; exact Hl|exact Hk].
Qed.

Lemma rng_state_singleton_witness :
  rngStateIsGlobal emptyModule
  /\ (countSymbol "rng_state" (symbolTableBody emptyModule) <= 1)%nat
  /\ exists rw' g,
      runOnOperation 3 [(0%nat, request 5 2 64);
                        (20%nat, request 7 2 64);
                        (40%nat, request 1 2 64)] emptyModule
      = Returned (passSucceeded, rw')
      /\ countGlobal "rng_state" (symbolTableBody rw') = 1%nat
      /\ getOrDefineGlobal rw' = Returned (g, rw').
Proof.
  split; [exact rngStateIsGlobal_emptyModule|]. split; [vm_compute; lia|].
  destruct (rng_state_singleton 3
              [(0%nat, request 5 2 64); (20%nat, request 7 2 64);
               (40%nat, request 1 2 64)] emptyModule
              rngStateIsGlobal_emptyModule ltac:(vm_compute; lia)
              ltac:(discriminate)
              ltac:(repeat constructor; by_computation)
              ltac:(repeat constructor; vm_compute; lia))
    as (rw' & g & Hret & Hcg & _ & _ & Hsame).
  exists rw', g. split; [exact Hret|]. split; [exact Hcg|].
  destruct (Hsame _ [] (eq_sym (app_nil_r _)) ltac:(discriminate))
    as (rw1 & Hret1 & Hg).
  apply runOnOperation_succeeds in Hret1.
  rewrite Hret in Hret1. injection Hret1 as <-. exact Hg.
Defined.

(** C7. Whenever the pass creates the counter global (no symbol
    [rng_state] is found at the first lowering), the definition placed at
    the start of the symbol table has name [rng_state], private
    visibility, a 128-bit integer element type and initial value
    [0x7012395], and it is the one global of that name in the rewritten
    module however many requests are lowered. *)
Theorem created_global_attributes fuel ops rw :
  lookupSymbolIn (symbolTableBody rw) "rng_state" = None ->
  ops <> [] ->
  Forall (fun po => validWordSize po.2) ops ->
  Forall (fun po => (iterations po.2 < fuel)%nat) ops ->
  let created :=
    memref_GlobalOp "rng_state" "private"
      (MemRefType [] (IntegerType 128 Signless))
      {| dense_type := RankedTensorType [] (IntegerType 128 Signless);
         dense_value := 0x7012395 |}
      false None in
  getOrDefineGlobal rw
  = Returned ((nextOp rw, created),
              {| symbolTableBody := (nextOp rw, created) :: symbolTableBody rw;
                 insertionBlock := insertionBlock rw;
                 replaced := replaced rw;
                 nextOp := S (nextOp rw) |})
  /\ exists rw',
      runOnOperation fuel ops rw = Returned (passSucceeded, rw')
      /\ symbolTableBody rw' = (nextOp rw, created) :: symbolTableBody rw
      /\ lookupSymbolIn (symbolTableBody rw') "rng_state"
         = Some (nextOp rw, created)
      /\ countGlobal "rng_state" (symbolTableBody rw') = 1%nat
      /\ initialGlobals (symbolTableBody rw') !! "rng_state"
         = Some (VInt 128 0x7012395).
Proof.
  intros Hl Hne Hv Hf created. fold globalName in Hl.
  assert (rngStateIsGlobal rw) as Hpre by (intros po Hpo; congruence).
  split; [exact (getOrDefineGlobal_created rw Hl)|].
  destruct (applyPartialConversion_returns fuel ops rw Hpre Hne Hv Hf)
    as (rw' & Hret & Htab).
  assert (tableAfter rw = (nextOp rw, created) :: symbolTableBody rw) as Ht.
  { unfold tableAfter. rewrite Hl. reflexivity. }
  exists rw'. split; [apply runOnOperation_succeeds, Hret|]. rewrite Htab.
  split; [exact Ht|]. split; [rewrite Ht; reflexivity|]. split.
  - apply count_tableAfter; [exact Hpre|].
    rewrite (lookupSymbolIn_None_count _ _ Hl). lia.
  - rewrite Ht. cbn [initialGlobals foldr snd created].
    apply lookup_insert_eq.
Qed.

Lemma created_global_attributes_witness :
  lookupSymbolIn (symbolTableBody emptyModule) "rng_state" = None
  /\ exists rw',
      runOnOperation 3 [(0%nat, request 5 2 64);
                        (20%nat, request 7 2 64)] emptyModule
      = Returned (passSucceeded, rw')
      /\ symbolTableBody rw' = [(1%nat, rngStateGlobal)].
Proof.
  split; [reflexivity|].
  destruct (created_global_attributes 3
              [(0%nat, request 5 2 64); (20%nat, request 7 2 64)] emptyModule
              ltac:(reflexivity) ltac:(discriminate)
              ltac:(repeat constructor; by_computation)
              ltac:(repeat constructor; vm_compute; lia))
    as (_ & rw' & Hret & Htab & _).
  exists rw'. split; [exact Hret|exact Htab].
Defined.

(** * Further properties of the lowering *)

(** ** Evaluation for every shape *)

Section WideShapes.

Lemma firstShift_no_narrowing op :
  validWordSize op -> 0 <= numElementsOf op ->
  (numElementsOf op - 1) * wordSizeOf op < 2 ^ 31 ->
  firstShift op = (numElementsOf op - 1) * wordSizeOf op
  /\ iterations op = Z.to_nat (numElementsOf op).
Proof.
  unfold validWordSize. intros HE HN Hfit.
  assert (firstShift op = (numElementsOf op - 1) * wordSizeOf op) as Hfs.
  { unfold firstShift. apply to_int_small. nia. }
  split; [exact Hfs|]. unfold iterations. rewrite Hfs.
  rewrite Z.div_mul by lia. f_equal. lia.
Qed.

(** The emitted operations evaluate as soon as the first shift distance
    is below the width of the counter. *)
Lemma exec_loweredOps_shift_in_range n op m old :
  validWordSize op -> 0 <= numElementsOf op ->
  (numElementsOf op - 1) * wordSizeOf op < 128 ->
  holds m old ->
  exists m',
    exec (loweredOps n op) m = Some m'
    /\ globals m'
       = <[globalName := VInt 128 ((old + deltaConstant op) mod 2 ^ 128)]>
           (globals m)
    /\ env m' !! S (n + 5 + 3 * iterations op)
       = Some (VTensor (getType op)
                 (VInt (wordSizeOf op)
                    <$> packed old (numElementsOf op) (wordSizeOf op))).
Proof.
  intros HE HN Hfit Hm.
  destruct (firstShift_no_narrowing op HE HN ltac:(lia)) as [Hfs Hit].
  unfold validWordSize in HE.
  set (E := wordSizeOf op) in *. set (N := numElementsOf op) in *.
  set (k := iterations op) in *.
  unfold loweredOps. fold E k.
  rewrite exec_app, (exec_updateOps n (deltaConstant op) m old Hm).
  cbn [mbind option_bind].
  match goal with |- context [exec _ ?st] => set (m1 := st) end.
  rewrite exec_app.
  destruct (exec_pieceOps (S n) E old k (n + 5) (firstShift op) m1)
    as (m2 & Hex & Hg & Hpres & Hmap).
  { unfold m1. simpl. do 2 (rewrite lookup_insert_ne by lia).
    apply lookup_insert_eq. }
  { lia. }
  { rewrite Hfs. lia. }
  { intros _. rewrite Hfs, Hit. rewrite Z2Nat.id by lia. lia. }
  { lia. }
  rewrite Hex. cbn [mbind option_bind].
  cbn [exec exec1 fst snd]. rewrite Hmap.
  cbn [setValue env globals]. rewrite lookup_insert_eq.
  eexists. split; [reflexivity|]. cbn [setValue env globals].
  split.
  - rewrite Hg. reflexivity.
  - rewrite lookup_insert_eq. do 2 f_equal.
    assert (N = Z.of_nat k) as HN' by lia.
    rewrite Hfs, HN'. symmetry. f_equal. apply packed_chunksFrom.
Qed.

Lemma exec_pieceOps_out_of_range oldVal E old n i k m :
  env m !! oldVal = Some (VInt 128 old) -> (oldVal < n)%nat -> 128 <= i ->
  exec (pieceOps oldVal (getIntegerType E) E n i (S k)) m = None.
Proof.
  intros Hold Hn Hi. simpl. unfold exec1 at 1. simpl.
  rewrite lookup_insert_ne by lia. rewrite Hold.
  rewrite lookup_insert_eq.
  destruct (decide (128 = 128)); [|congruence].
  destruct (Z.ltb_spec i 128); [lia|]. reflexivity.
Qed.

(** A first shift distance of the width of the counter or more has no
    defined result. *)
Lemma exec_loweredOps_shift_out_of_range n op m old :
  validWordSize op -> 1 <= numElementsOf op ->
  128 <= (numElementsOf op - 1) * wordSizeOf op < 2 ^ 31 ->
  holds m old ->
  exec (loweredOps n op) m = None.
Proof.
  intros HE HN Hfit Hm.
  destruct (firstShift_no_narrowing op HE ltac:(lia) ltac:(lia)) as [Hfs Hit].
  unfold loweredOps.
  rewrite exec_app, (exec_updateOps n (deltaConstant op) m old Hm).
  cbn [mbind option_bind]. rewrite exec_app.
  destruct (iterations op) as [|k] eqn:Hk; [lia|].
  rewrite (exec_pieceOps_out_of_range (S n) (wordSizeOf op) old);
    [reflexivity| |lia|lia].
  cbn [env]. do 2 (rewrite lookup_insert_ne by lia). apply lookup_insert_eq.
Qed.

End WideShapes.

(** X1. The lowered code of a well-formed request writes [rng_state] and
    no other global: after it the store of globals is the one before with
    [rng_state] set to [(old + delta) mod 2^128], so every other global
    holds what it held. *)
Theorem lowered_code_writes_only_rng_state fuel p op rw m old :
  wellFormed op -> rngStateIsGlobal rw ->
  (Z.to_nat (numElementsOf op) < fuel)%nat ->
  holds m old ->
  exists rw' m',
    matchAndRewrite fuel (p, op) rw = Returned (success, rw')
    /\ exec (drop (length (insertionBlock rw)) (insertionBlock rw')) m = Some m'
    /\ globals m'
       = <["rng_state"%string := VInt 128 ((old + delta op) mod 2 ^ 128)]>
           (globals m)
    /\ (forall name, name <> "rng_state" ->
                     globals m' !! name = globals m !! name).
Proof.
  intros [Hd Hws] Hpre Hf Hm.
  destruct (exec_loweredOps (nextAfter rw) op m old Hws Hm)
    as (m' & Hex & Hg & _ & _).
  rewrite (deltaConstant_uint64 op Hd) in Hg.
  exists (lowered p op rw), m'. split.
  { apply matchAndRewrite_returns; [apply Hws|exact Hpre|].
    rewrite (iterations_wellShaped op Hws). exact Hf. }
  split.
  { cbn [lowered insertionBlock]. rewrite drop_app_length. exact Hex. }
  split; [exact Hg|].
  intros name Hne. rewrite Hg. apply lookup_insert_ne.
  unfold globalName. congruence.
Qed.

Lemma lowered_code_writes_only_rng_state_witness :
  wellFormed (request 3 2 64)
  /\ rngStateIsGlobal emptyModule
  /\ holds {| globals := <["seed_table"%string := VInt 32 9]>
                           {[ globalName := VInt 128 10 ]};
              env := ∅ |} 10
  /\ exists rw' m',
      matchAndRewrite 3 (0%nat, request 3 2 64) emptyModule
      = Returned (success, rw')
      /\ exec (insertionBlock rw')
              {| globals := <["seed_table"%string := VInt 32 9]>
                              {[ globalName := VInt 128 10 ]};
                 env := ∅ |} = Some m'
      /\ globals m' !! "rng_state" = Some (VInt 128 13)
      /\ globals m' !! "seed_table" = Some (VInt 32 9).
Proof.
  assert (wellFormed (request 3 2 64)) as Hwf
    by (apply wellFormed_request; by_computation).
  assert (holds {| globals := <["seed_table"%string := VInt 32 9]>
                                {[ globalName := VInt 128 10 ]};
                   env := ∅ |} 10) as Hm by reflexivity.
  split; [exact Hwf|]. split; [exact rngStateIsGlobal_emptyModule|].
  split; [exact Hm|].
  destruct (lowered_code_writes_only_rng_state 3 0%nat (request 3 2 64)
              emptyModule _ 10 Hwf rngStateIsGlobal_emptyModule
              ltac:(vm_compute; lia) Hm)
    as (rw' & m' & Hret & Hex & Hg & Hother).
  exists rw', m'. split; [exact Hret|]. split; [exact Hex|]. split.
  - rewrite Hg. reflexivity.
  - rewrite (Hother "seed_table"%string ltac:(discriminate)). reflexivity.
Defined.

(** X2. The pattern does not check the shape: for every shape with
    elements narrower than the counter ([E < 128]) whose first shift
    distance [(N - 1) * E] fits an [int], it returns success, and the
    emitted code has a defined evaluation exactly when that distance is
    below 128; then the replacement is the packing of the counter. *)
Theorem evaluation_defined_iff_shift_in_range fuel p op rw m old :
  let N := numElementsOf op in
  let E := wordSizeOf op in
  validWordSize op -> E < 128 -> 0 <= N -> (N - 1) * E < 2 ^ 31 ->
  rngStateIsGlobal rw -> (Z.to_nat N < fuel)%nat -> holds m old ->
  exists rw',
    matchAndRewrite fuel (p, op) rw = Returned (success, rw')
    /\ (is_Some (exec (drop (length (insertionBlock rw)) (insertionBlock rw')) m)
        <-> (N - 1) * E < 128)
    /\ ((N - 1) * E < 128 ->
        exists m',
          exec (drop (length (insertionBlock rw)) (insertionBlock rw')) m
          = Some m'
          /\ resultOf rw' p m'
             = Some (VTensor (getType op) (VInt E <$> packed old N E))).
Proof.
  intros N E HE _ HN Hint Hpre Hf Hm.
  destruct (firstShift_no_narrowing op HE HN Hint) as [_ Hit].
  exists (lowered p op rw). split.
  { apply matchAndRewrite_returns; [exact HE|exact Hpre|].
    rewrite Hit. exact Hf. }
  cbn [lowered insertionBlock]. rewrite drop_app_length.
  assert ((N - 1) * E < 128 ->
          exists m',
            exec (loweredOps (nextAfter rw) op) m = Some m'
            /\ resultOf (lowered p op rw) p m'
               = Some (VTensor (getType op) (VInt E <$> packed old N E)))
    as Hdef.
  { intros Hlt.
    destruct (exec_loweredOps_shift_in_range (nextAfter rw) op m old
                HE HN Hlt Hm) as (m' & Hex & _ & Hres).
    exists m'. split; [exact Hex|]. rewrite resultOf_lowered. exact Hres. }
  split; [|exact Hdef]. split.
  - intros [m' Hex]. destruct (Z.lt_ge_cases ((N - 1) * E) 128) as [|Hge];
      [assumption|].
    assert (1 <= N) as HN1 by (unfold validWordSize in HE; fold E in HE; nia).
    rewrite (exec_loweredOps_shift_out_of_range (nextAfter rw) op m old
               HE HN1 ltac:(fold N E; lia) Hm) in Hex.
    discriminate.
  - intros Hlt. destruct (Hdef Hlt) as (m' & Hex & _). eauto.
Qed.

Lemma evaluation_defined_iff_shift_in_range_witness :
  validWordSize (request 5 2 100)
  /\ wordSizeOf (request 5 2 100) < 128
  /\ (numElementsOf (request 5 2 100) - 1) * wordSizeOf (request 5 2 100) < 128
  /\ rngStateIsGlobal emptyModule
  /\ holds (machineHolding (2 ^ 127)) (2 ^ 127)
  /\ exists rw' m',
      matchAndRewrite 3 (0%nat, request 5 2 100) emptyModule
      = Returned (success, rw')
      /\ exec (insertionBlock rw') (machineHolding (2 ^ 127)) = Some m'
      /\ resultOf rw' 0%nat m'
         = Some (VTensor (tensorOf 2 100) [VInt 100 (2 ^ 27); VInt 100 0]).
Proof.
  split; [by_computation|]. split; [by_computation|].
  split; [by_computation|].
  split; [exact rngStateIsGlobal_emptyModule|].
  split; [apply holds_machineHolding|].
  destruct (evaluation_defined_iff_shift_in_range 3 0%nat (request 5 2 100)
              emptyModule (machineHolding (2 ^ 127)) (2 ^ 127)
              ltac:(by_computation) ltac:(by_computation)
              ltac:(by_computation)
              ltac:(by_computation) rngStateIsGlobal_emptyModule
              ltac:(vm_compute; lia) (holds_machineHolding _))
    as (rw' & Hret & _ & Hdef).
  destruct (Hdef ltac:(by_computation)) as (m' & Hex & Hres).
  exists rw', m'. split; [exact Hret|]. split; [exact Hex|].
  rewrite Hres. reflexivity.
Defined.

(** X3. The first shift distance is narrowed to [int]: when
    [(N - 1) * E] lies in [2^31, 2^32) the narrowed value is negative, the
    loop body never runs, and the [N]-element result tensor is built from
    no elements although [N > 1]. *)
Theorem narrowed_shift_builds_no_pieces fuel p op rw :
  let N := numElementsOf op in
  let E := wordSizeOf op in
  let n := nextAfter rw in
  validWordSize op -> 2 ^ 31 <= (N - 1) * E < 2 ^ 32 ->
  rngStateIsGlobal rw -> (0 < fuel)%nat ->
  1 < N
  /\ exists rw',
      matchAndRewrite fuel (p, op) rw = Returned (success, rw')
      /\ insertionBlock rw'
         = insertionBlock rw
             ++ updateOps n (deltaConstant op)
             ++ [ ((n + 5)%nat,
                   tensor_FromElementsOp
                     (RankedTensorType (getShape (getType op))
                                       (getIntegerType E)) []);
                  ((n + 6)%nat,
                   UnrealizedConversionCastOp (getType op) (n + 5)%nat) ].
Proof.
  intros N E n HE Hrange Hpre Hf.
  pose proof HE as HE'. unfold validWordSize in HE'. fold E in HE'.
  assert (firstShift op = (N - 1) * E - 2 ^ 32) as Hfs.
  { unfold firstShift, to_int, wrap_signed. fold N E.
    change (2 ^ (32 - 1)) with (2 ^ 31).
    replace ((N - 1) * E + 2 ^ 31)
      with (((N - 1) * E - 2 ^ 31) + 1 * 2 ^ 32) by lia.
    rewrite Z.mod_add by lia. rewrite Z.mod_small by lia. lia. }
  assert (iterations op = 0%nat) as Hit.
  { unfold iterations. fold E. rewrite Hfs.
    assert (((N - 1) * E - 2 ^ 32) / E < 0)
      by (apply Z.div_lt_upper_bound; lia).
    lia. }
  split; [nia|].
  exists (lowered p op rw). split.
  { apply matchAndRewrite_returns; [exact HE|exact Hpre|lia]. }
  cbn [lowered insertionBlock]. fold n. unfold loweredOps. rewrite Hit.
  cbn [pieceOps pieceValues app]. fold E.
  replace (n + 5 + 3 * 0)%nat with (n + 5)%nat by lia.
  replace (S (n + 5)) with (n + 6)%nat by lia. reflexivity.
Qed.

Lemma narrowed_shift_builds_no_pieces_witness :
  validWordSize (request 5 33554433 64)
  /\ 2 ^ 31 <= (numElementsOf (request 5 33554433 64) - 1)
               * wordSizeOf (request 5 33554433 64) < 2 ^ 32
  /\ rngStateIsGlobal emptyModule
  /\ exists rw',
      matchAndRewrite 1 (0%nat, request 5 33554433 64) emptyModule
      = Returned (success, rw')
      /\ length (insertionBlock rw') = 7%nat.
Proof.
  split; [by_computation|]. split; [by_computation|].
  split; [exact rngStateIsGlobal_emptyModule|].
  destruct (narrowed_shift_builds_no_pieces 1 0%nat (request 5 33554433 64)
              emptyModule ltac:(by_computation) ltac:(by_computation)
              rngStateIsGlobal_emptyModule ltac:(lia))
    as (_ & rw' & Hret & Hblock).
  exists rw'. split; [exact Hret|]. rewrite Hblock. reflexivity.
Defined.

(** ** The packing, for every well-shaped request *)

Section PackingFurther.

Lemma fmap_VInt_inj E (l1 l2 : list Z) :
  VInt E <$> l1 = VInt E <$> l2 -> l1 = l2.
Proof.
  revert l2. induction l1 as [|x l1 IH]; intros [|y l2] H; try discriminate H.
  - reflexivity.
  - cbn [fmap list_fmap] in H. injection H as Hx Hl. f_equal; auto.
Qed.

Lemma packed_in_range value N E :
  0 < E -> Forall (fun e => 0 <= e < 2 ^ E) (packed value N E).
Proof.
  intros HE. unfold packed. apply Forall_forall. intros e He.
  apply list_elem_of_In, in_map_iff in He as (j & <- & _).
  unfold packedElement.
  apply Z.mod_pos_bound. apply Z.pow_pos_nonneg; lia.
Qed.

Lemma packed_determines_low_bits v1 v2 N E :
  0 < E -> 0 <= N ->
  packed v1 N E = packed v2 N E ->
  v1 mod 2 ^ (N * E) = v2 mod 2 ^ (N * E).
Proof.
  intros HE HN Hp. rewrite <- (Z2Nat.id N) by lia.
  rewrite <- !concatMSF_packed by exact HE.
  rewrite !Z2Nat.id by lia. rewrite Hp. reflexivity.
Qed.

End PackingFurther.

(** X4. For every well-shaped request, the values that replace it on two
    machines are equal exactly when the two counters agree on their low
    [N * E] bits: the result carries those bits and nothing else. *)
Theorem result_equal_iff_low_bits_equal fuel p op rw m1 m2 v1 v2 :
  let N := numElementsOf op in
  let E := wordSizeOf op in
  wellShaped op -> rngStateIsGlobal rw -> (Z.to_nat N < fuel)%nat ->
  holds m1 v1 -> holds m2 v2 ->
  exists rw' m1' m2',
    matchAndRewrite fuel (p, op) rw = Returned (success, rw')
    /\ exec (drop (length (insertionBlock rw)) (insertionBlock rw')) m1 = Some m1'
    /\ exec (drop (length (insertionBlock rw)) (insertionBlock rw')) m2 = Some m2'
    /\ (resultOf rw' p m1' = resultOf rw' p m2'
        <-> v1 mod 2 ^ (N * E) = v2 mod 2 ^ (N * E)).
Proof.
  intros N E Hws Hpre Hf Hm1 Hm2.
  destruct (lowering_runs fuel p op rw m1 v1 Hws Hpre Hf Hm1)
    as (Hret & m1' & Hex1 & _ & _ & Hres1).
  destruct (lowering_runs fuel p op rw m2 v2 Hws Hpre Hf Hm2)
    as (_ & m2' & Hex2 & _ & _ & Hres2).
  destruct Hws as [HE HN _]. unfold validWordSize in HE.
  exists (lowered p op rw), m1', m2'. split; [exact Hret|].
  cbn [lowered insertionBlock]. rewrite drop_app_length.
  split; [exact Hex1|]. split; [exact Hex2|].
  rewrite Hres1, Hres2. fold N E. split.
  - intros [= Heq]. apply fmap_VInt_inj in Heq.
    apply packed_determines_low_bits; [lia|exact HN|exact Heq].
  - intros Hv. do 3 f_equal. apply packed_low_bits; [lia|exact Hv].
Qed.

Lemma result_equal_iff_low_bits_equal_witness :
  wellShaped (request 5 3 8)
  /\ rngStateIsGlobal emptyModule
  /\ exists rw' m1' m2',
      matchAndRewrite 4 (0%nat, request 5 3 8) emptyModule
      = Returned (success, rw')
      /\ exec (insertionBlock rw') (machineHolding 0xABCDEF) = Some m1'
      /\ exec (insertionBlock rw') (machineHolding 0x77ABCDEF) = Some m2'
      /\ resultOf rw' 0%nat m1' = resultOf rw' 0%nat m2'.
Proof.
  assert (wellShaped (request 5 3 8)) as Hws
    by (apply wellShaped_request; by_computation).
  split; [exact Hws|]. split; [exact rngStateIsGlobal_emptyModule|].
  destruct (result_equal_iff_low_bits_equal 4 0%nat (request 5 3 8)
              emptyModule (machineHolding 0xABCDEF)
              (machineHolding 0x77ABCDEF) 0xABCDEF 0x77ABCDEF Hws
              rngStateIsGlobal_emptyModule ltac:(vm_compute; lia)
              (holds_machineHolding _) (holds_machineHolding _))
    as (rw' & m1' & m2' & Hret & Hex1 & Hex2 & Hiff).
  exists rw', m1', m2'. split; [exact Hret|]. split; [exact Hex1|].
  split; [exact Hex2|]. apply Hiff. reflexivity.
Defined.

(** X5. For every well-shaped request (any [N >= 0] and [E > 0] with
    [N * E <= 128]) the replacement tensor has [N] elements, each within
    [0, 2^E), whose concatenation most significant first is the counter
    modulo [2^(N * E)]; when [N * E = 128] it is the whole 128-bit
    counter. *)
Theorem elements_fit_and_recombine fuel p op rw m value :
  let N := numElementsOf op in
  let E := wordSizeOf op in
  wellShaped op -> rngStateIsGlobal rw -> (Z.to_nat N < fuel)%nat ->
  holds m value ->
  exists rw' m' elements,
    matchAndRewrite fuel (p, op) rw = Returned (success, rw')
    /\ exec (drop (length (insertionBlock rw)) (insertionBlock rw')) m = Some m'
    /\ resultOf rw' p m' = Some (VTensor (getType op) (VInt E <$> elements))
    /\ length elements = Z.to_nat N
    /\ Forall (fun e => 0 <= e < 2 ^ E) elements
    /\ concatMSF E elements = value mod 2 ^ (N * E)
    /\ (N * E = 128 -> 0 <= value < 2 ^ 128 -> concatMSF E elements = value).
Proof.
  intros N E Hws Hpre Hf Hm.
  destruct (lowering_runs fuel p op rw m value Hws Hpre Hf Hm)
    as (Hret & m' & Hex & _ & _ & Hres).
  destruct Hws as [HE HN _]. unfold validWordSize in HE. fold N E in HE, HN.
  assert (concatMSF E (packed value N E) = value mod 2 ^ (N * E)) as Hcat.
  { rewrite <- (Z2Nat.id N) by lia. apply concatMSF_packed. lia. }
  exists (lowered p op rw), m', (packed value N E).
  split; [exact Hret|]. split.
  { cbn [lowered insertionBlock]. rewrite drop_app_length. exact Hex. }
  split; [exact Hres|]. split; [apply packed_length|].
  split; [apply packed_in_range; lia|]. split; [exact Hcat|].
  intros H128 Hv. rewrite Hcat, H128. apply Z.mod_small. exact Hv.
Qed.

Lemma elements_fit_and_recombine_witness :
  wellShaped (request 5 16 8)
  /\ rngStateIsGlobal emptyModule
  /\ holds (machineHolding 0x0123456789ABCDEFFEDCBA9876543210)
           0x0123456789ABCDEFFEDCBA9876543210
  /\ exists rw' m' elements,
      matchAndRewrite 17 (0%nat, request 5 16 8) emptyModule
      = Returned (success, rw')
      /\ resultOf rw' 0%nat m'
         = Some (VTensor (tensorOf 16 8) (VInt 8 <$> elements))
      /\ concatMSF 8 elements = 0x0123456789ABCDEFFEDCBA9876543210.
Proof.
  assert (wellShaped (request 5 16 8)) as Hws
    by (apply wellShaped_request; by_computation).
  split; [exact Hws|]. split; [exact rngStateIsGlobal_emptyModule|].
  split; [apply holds_machineHolding|].
  destruct (elements_fit_and_recombine 17 0%nat (request 5 16 8) emptyModule
              (machineHolding 0x0123456789ABCDEFFEDCBA9876543210)
              0x0123456789ABCDEFFEDCBA9876543210 Hws
              rngStateIsGlobal_emptyModule ltac:(vm_compute; lia)
              (holds_machineHolding _))
    as (rw' & m' & elements & Hret & _ & Hres & _ & _ & _ & Hall).
  exists rw', m', elements. split; [exact Hret|]. split; [exact Hres|].
  apply Hall; by_computation.
Defined.

(** ** The shape of the emitted code *)

Section EmittedCode.

Lemma pieceOps_length oldVal small E k :
  forall n i, length (pieceOps oldVal small E n i k) = (3 * k)%nat.
Proof.
  induction k as [|k IH]; intros n i; [reflexivity|].
  cbn [pieceOps length]. rewrite IH. lia.
Qed.

Lemma pieceOps_addresses oldVal small E k :
  forall n i, (pieceOps oldVal small E n i k).*1 = seq n (3 * k).
Proof.
  induction k as [|k IH]; intros n i; [reflexivity|].
  replace (3 * S k)%nat with (S (S (S (3 * k)))) by lia.
  cbn [pieceOps fmap list_fmap fst seq]. do 3 f_equal. apply IH.
Qed.

Lemma pieceOps_operands oldVal small E n0 k :
  forall n i,
    (n0 <= oldVal < n)%nat ->
    Forall (fun po => Forall (fun v => (n0 <= v < po.1)%nat) (operandsOf po.2))
           (pieceOps oldVal small E n i k).
Proof.
  induction k as [|k IH]; intros n i Hn; [constructor|].
  cbn [pieceOps].
  constructor; [constructor|].
  constructor; [cbn; repeat constructor; lia|].
  constructor; [cbn; repeat constructor; lia|].
  apply IH. lia.
Qed.

Lemma pieceValues_range k :
  forall n, Forall (fun v => (n <= v < n + 3 * k)%nat) (pieceValues n k).
Proof.
  induction k as [|k IH]; intros n; [constructor|].
  cbn [pieceValues]. constructor; [lia|].
  eapply Forall_impl; [apply IH|]. cbn. intros v Hv. lia.
Qed.

Lemma pieceValues_length k : forall n, length (pieceValues n k) = k.
Proof. induction k as [|k IH]; intros n; cbn; auto. Qed.

Lemma loweredOps_length n op :
  length (loweredOps n op) = (3 * iterations op + 7)%nat.
Proof.
  unfold loweredOps. rewrite !length_app, pieceOps_length. cbn. lia.
Qed.

Lemma loweredOps_addresses n op :
  (loweredOps n op).*1 = seq n (3 * iterations op + 7).
Proof.
  unfold loweredOps. rewrite !fmap_app, pieceOps_addresses.
  replace (3 * iterations op + 7)%nat
    with (5 + (3 * iterations op + 2))%nat by lia.
  rewrite seq_app. f_equal. rewrite seq_app. f_equal.
Qed.

Lemma loweredOps_operands n op :
  Forall (fun po => Forall (fun v => (n <= v < po.1)%nat) (operandsOf po.2))
         (loweredOps n op).
Proof.
  unfold loweredOps. apply Forall_app. split.
  { cbn. repeat (constructor; [repeat constructor; lia|]). constructor. }
  apply Forall_app. split; [apply pieceOps_operands; lia|].
  constructor.
  - cbn [snd fst operandsOf].
    eapply Forall_impl; [apply pieceValues_range|]. cbn. intros v Hv. lia.
  - constructor; [|constructor]. cbn. repeat constructor; lia.
Qed.

Lemma loweredOps_symbol_uses n op :
  Forall (fun po => forall s, symbolUseOf po.2 = Some s -> s = globalName)
         (loweredOps n op).
Proof.
  unfold loweredOps. apply Forall_app. split.
  { cbn. repeat (constructor; [cbn; congruence|]). constructor. }
  apply Forall_app. split.
  - generalize (n + 5)%nat (firstShift op).
    induction (iterations op) as [|k IH]; intros a i; [constructor|].
    cbn [pieceOps]. repeat (constructor; [cbn; congruence|]). apply IH.
  - repeat (constructor; [cbn; congruence|]). constructor.
Qed.

End EmittedCode.

(** X6. The operations one application creates are in scope: they get the
    consecutive addresses from the first free one on, every operand is
    the result of an operation created earlier in the same application,
    and the only symbol referred to is [rng_state], which the rewritten
    symbol table resolves to a memref global. *)
Theorem emitted_operations_are_scoped fuel p op rw :
  let n := nextAfter rw in
  validWordSize op -> rngStateIsGlobal rw -> (iterations op < fuel)%nat ->
  exists rw' added,
    matchAndRewrite fuel (p, op) rw = Returned (success, rw')
    /\ insertionBlock rw' = insertionBlock rw ++ added
    /\ added.*1 = seq n (length added)
    /\ nextOp rw' = (n + length added)%nat
    /\ Forall (fun po => Forall (fun v => (n <= v < po.1)%nat)
                                (operandsOf po.2)) added
    /\ Forall (fun po =>
                 forall s, symbolUseOf po.2 = Some s ->
                           exists g,
                             lookupSymbolIn (symbolTableBody rw') s = Some g
                             /\ isa_GlobalOp g.2 = true) added.
Proof.
  intros n HE Hpre Hf.
  exists (lowered p op rw), (loweredOps n op).
  split; [apply matchAndRewrite_returns; assumption|].
  split; [reflexivity|].
  split; [rewrite loweredOps_length; apply loweredOps_addresses|].
  split; [rewrite loweredOps_length; cbn [lowered nextOp]; fold n; lia|].
  split; [apply loweredOps_operands|].
  eapply Forall_impl; [apply loweredOps_symbol_uses|].
  cbn beta. intros po Hs s Hu. rewrite (Hs s Hu).
  cbn [lowered symbolTableBody]. apply rngStateIsGlobal_tableAfter, Hpre.
Qed.

Lemma emitted_operations_are_scoped_witness :
  validWordSize (request 5 2 64)
  /\ rngStateIsGlobal emptyModule
  /\ exists rw',
      matchAndRewrite 3 (0%nat, request 5 2 64) emptyModule
      = Returned (success, rw')
      /\ (insertionBlock rw').*1 = seq 2 (length (insertionBlock rw')).
Proof.
  split; [by_computation|]. split; [exact rngStateIsGlobal_emptyModule|].
  destruct (emitted_operations_are_scoped 3 0%nat (request 5 2 64)
              emptyModule ltac:(by_computation)
              rngStateIsGlobal_emptyModule ltac:(vm_compute; lia))
    as (rw' & added & Hret & Hblock & Haddr & _).
  exists rw'. split; [exact Hret|].
  rewrite Hblock. exact Haddr.
Defined.

(** ** The pass configuration against what the pattern creates *)

Section Legality.

Lemma pieceOps_legal oldVal small E k :
  forall n i,
    Forall (fun po =>
              getOpAction target (getOperationName po.2) (getDialect po.2)
              = Some Legal
              /\ getDialect po.2 ∈ BuiltinDialect :: getDependentDialects)
           (pieceOps oldVal small E n i k).
Proof.
  induction k as [|k IH]; intros n i; [constructor|].
  cbn [pieceOps].
  repeat (constructor; [split; [reflexivity|cbn; set_solver]|]). apply IH.
Qed.

Lemma loweredOps_legal n op :
  Forall (fun po =>
            getOpAction target (getOperationName po.2) (getDialect po.2)
            = Some Legal
            /\ getDialect po.2 ∈ BuiltinDialect :: getDependentDialects)
         (loweredOps n op).
Proof.
  unfold loweredOps. apply Forall_app. split.
  { repeat (constructor; [split; [reflexivity|cbn; set_solver]|]).
    constructor. }
  apply Forall_app. split; [apply pieceOps_legal|].
  repeat (constructor; [split; [reflexivity|cbn; set_solver]|]). constructor.
Qed.

End Legality.

(** X7. Whatever one application of the pattern creates, at the insertion
    point or in the symbol table, is legal for the target that
    [runOnOperation] sets up and belongs to the builtin dialect or to a
    dialect that [getDependentDialects] registers; the instruction the
    pattern matches is illegal for that target. *)
Theorem created_operations_are_legal fuel p op rw :
  validWordSize op -> rngStateIsGlobal rw -> (iterations op < fuel)%nat ->
  exists rw' added defined,
    matchAndRewrite fuel (p, op) rw = Returned (success, rw')
    /\ insertionBlock rw' = insertionBlock rw ++ added
    /\ symbolTableBody rw' = defined ++ symbolTableBody rw
    /\ Forall (fun po =>
                 getOpAction target (getOperationName po.2) (getDialect po.2)
                 = Some Legal
                 /\ getDialect po.2 ∈ BuiltinDialect :: getDependentDialects)
              (added ++ defined)
    /\ getOpAction target XlaRngGetAndUpdateStateOp_name MhloDialect
       = Some Illegal.
Proof.
  intros HE Hpre Hf.
  exists (lowered p op rw), (loweredOps (nextAfter rw) op),
    (match lookupSymbolIn (symbolTableBody rw) globalName with
     | Some _ => []
     | None => [(nextOp rw, rngStateGlobal)]
     end).
  split; [apply matchAndRewrite_returns; assumption|].
  split; [reflexivity|]. split.
  { cbn [lowered symbolTableBody]. unfold tableAfter.
    destruct (lookupSymbolIn (symbolTableBody rw) globalName); reflexivity. }
  split; [|reflexivity].
  apply Forall_app. split; [apply loweredOps_legal|].
  destruct (lookupSymbolIn (symbolTableBody rw) globalName); [constructor|].
  constructor; [|constructor]. split; [reflexivity|cbn; set_solver].
Qed.

Lemma created_operations_are_legal_witness :
  validWordSize (request 5 2 64)
  /\ rngStateIsGlobal emptyModule
  /\ exists rw',
      matchAndRewrite 3 (0%nat, request 5 2 64) emptyModule
      = Returned (success, rw')
      /\ Forall (fun po =>
                   getOpAction target (getOperationName po.2)
                               (getDialect po.2) = Some Legal)
                (insertionBlock rw' ++ symbolTableBody rw').
Proof.
  split; [by_computation|]. split; [exact rngStateIsGlobal_emptyModule|].
  destruct (created_operations_are_legal 3 0%nat (request 5 2 64)
              emptyModule ltac:(by_computation)
              rngStateIsGlobal_emptyModule ltac:(vm_compute; lia))
    as (rw' & added & defined & Hret & Hblock & Htab & Hlegal & _).
  exists rw'. split; [exact Hret|].
  rewrite Hblock, Htab. cbn [emptyModule insertionBlock symbolTableBody app].
  rewrite app_nil_r.
  eapply Forall_impl; [exact Hlegal|]. cbn beta. intros po [H _]. exact H.
Defined.

(** X8. The value recorded as the replacement of the matched instruction
    is the result of the last operation created, an unrealized cast to the
    instruction's own result type of a [tensor.from_elements] of the same
    shape with signless elements of the same width; when the first shift
    distance fits an [int] the tensor has [N] operands; the replacements
    recorded for other instructions are untouched. *)
Theorem replacement_has_result_type fuel p op rw :
  let N := numElementsOf op in
  let E := wordSizeOf op in
  validWordSize op -> 0 <= N -> (N - 1) * E < 2 ^ 31 ->
  rngStateIsGlobal rw -> (Z.to_nat N < fuel)%nat ->
  exists rw' front t c pieces,
    matchAndRewrite fuel (p, op) rw = Returned (success, rw')
    /\ insertionBlock rw'
       = front
           ++ [ (t, tensor_FromElementsOp
                      (RankedTensorType (getShape (getType op))
                                        (IntegerType E Signless))
                      pieces);
                (c, UnrealizedConversionCastOp (getType op) t) ]
    /\ length pieces = Z.to_nat N
    /\ replaced rw' !! p = Some c
    /\ (forall q, q <> p -> replaced rw' !! q = replaced rw !! q).
Proof.
  intros N E HE HN Hint Hpre Hf.
  destruct (firstShift_no_narrowing op HE HN Hint) as [_ Hit].
  set (n := nextAfter rw). set (k := iterations op).
  exists (lowered p op rw),
    (insertionBlock rw ++ updateOps n (deltaConstant op)
       ++ pieceOps (S n) (getIntegerType E) E (n + 5) (firstShift op) k),
    (n + 5 + 3 * k)%nat, (S (n + 5 + 3 * k)), (pieceValues (n + 5) k).
  split.
  { apply matchAndRewrite_returns; [exact HE|exact Hpre|].
    rewrite Hit. exact Hf. }
  split.
  { cbn [lowered insertionBlock]. unfold loweredOps. fold n k E.
    rewrite <- !app_assoc. reflexivity. }
  split; [rewrite pieceValues_length; exact Hit|].
  cbn [lowered replaced]. fold n k. split.
  - apply lookup_insert_eq.
  - intros q Hq. apply lookup_insert_ne. congruence.
Qed.

Lemma replacement_has_result_type_witness :
  validWordSize (request 5 2 64)
  /\ (numElementsOf (request 5 2 64) - 1) * wordSizeOf (request 5 2 64)
     < 2 ^ 31
  /\ rngStateIsGlobal emptyModule
  /\ exists rw' c,
      matchAndRewrite 3 (0%nat, request 5 2 64) emptyModule
      = Returned (success, rw')
      /\ replaced rw' !! 0%nat = Some c.
Proof.
  split; [by_computation|]. split; [by_computation|].
  split; [exact rngStateIsGlobal_emptyModule|].
  destruct (replacement_has_result_type 3 0%nat (request 5 2 64) emptyModule
              ltac:(by_computation) ltac:(by_computation)
              ltac:(by_computation) rngStateIsGlobal_emptyModule
              ltac:(vm_compute; lia))
    as (rw' & front & t & c & pieces & Hret & _ & _ & Hrep & _).
  exists rw', c. split; [exact Hret|exact Hrep].
Defined.

(** ** An element width of zero *)

Lemma packLoop_zero_width fuel oldVal small :
  forall pieces rw, packLoop fuel oldVal small 0 0 pieces rw = OutOfFuel.
Proof.
  induction fuel as [|fuel IH]; intros pieces rw; [reflexivity|].
  cbn [packLoop]. change (0 <=? 0) with true. cbv iota.
  unfold bind at 1 2 3. unfold create at 1 2 3. cbn [fst snd nextOp].
  change (to_int (to_unsigned (to_unsigned 0 - 0))) with 0. apply IH.
Qed.

(** X9. With an element type of width 0 the loop counter starts at 0 and
    the step [i -= wordSize] leaves it there: the loop test never fails,
    and no amount of fuel lets the pattern, or the pass, return. *)
Theorem zero_width_never_returns fuel p op rest rw :
  wordSizeOf op = 0 -> rngStateIsGlobal rw ->
  matchAndRewrite fuel (p, op) rw = OutOfFuel
  /\ runOnOperation fuel ((p, op) :: rest) rw = OutOfFuel.
Proof.
  intros HE Hpre.
  assert (matchAndRewrite fuel (p, op) rw = OutOfFuel) as Hout.
  { destruct (getOrDefineGlobal_returns rw Hpre) as (g & Hg & _ & _).
    unfold matchAndRewrite. cbn [fst snd].
    rewrite (bind_returned _ _ _ _ _ Hg).
    rewrite (bind_returned _ _ _ _ _ (getAndUpdate_returns _ _)).
    fold (wordSizeOf op). rewrite HE, Z.mul_0_r.
    change (to_int 0) with 0. unfold bind at 1.
    rewrite packLoop_zero_width. reflexivity. }
  split; [exact Hout|].
  unfold runOnOperation, bind, applyPartialConversion. cbn [legalize].
  rewrite Hout. reflexivity.
Qed.

Lemma zero_width_never_returns_witness :
  wordSizeOf (request 5 2 0) = 0
  /\ rngStateIsGlobal emptyModule
  /\ matchAndRewrite 1000 (0%nat, request 5 2 0) emptyModule = OutOfFuel.
Proof.
  split; [reflexivity|]. split; [exact rngStateIsGlobal_emptyModule|].
  exact (proj1 (zero_width_never_returns 1000 0%nat (request 5 2 0) []
                  emptyModule eq_refl rngStateIsGlobal_emptyModule)).
Defined.

(** ** Any number of lowerings, evaluated in sequence *)

Section Threading.

Lemma exec1_env_other po m m' v :
  exec1 po m = Some m' -> v <> po.1 -> env m' !! v = env m !! v.
Proof.
  intros H Hv. destruct po as [r o]. unfold exec1 in H. cbn [fst snd] in *.
  destruct o; repeat case_match; simplify_eq; cbn [setValue setGlobal env];
    rewrite ?lookup_insert_ne by congruence; reflexivity.
Qed.

(** Evaluation writes the results of the operations evaluated and no other
    value. *)
Lemma exec_frame ops :
  forall m m' n,
    exec ops m = Some m' ->
    Forall (fun po => (n <= po.1)%nat) ops ->
    forall v, (v < n)%nat -> env m' !! v = env m !! v.
Proof.
  induction ops as [|po ops IH]; intros m m' n Hex Hge v Hv.
  - cbn in Hex. congruence.
  - cbn [exec] in Hex. destruct (exec1 po m) as [m1|] eqn:H1; [|discriminate].
    apply Forall_cons in Hge as [Hpo Hge].
    rewrite (IH m1 m' n Hex Hge v Hv).
    apply (exec1_env_other po m m1 v H1). lia.
Qed.

Lemma nextOp_le_nextAfter rw : (nextOp rw <= nextAfter rw)%nat.
Proof.
  unfold nextAfter.
  destruct (lookupSymbolIn (symbolTableBody rw) globalName); lia.
Qed.

Lemma loweredOps_addresses_ge n op :
  Forall (fun po => (n <= po.1)%nat) (loweredOps n op).
Proof.
  pose proof (loweredOps_addresses n op) as Ha.
  assert (Forall (fun a => (n <= a)%nat) (loweredOps n op).*1) as Hf.
  { rewrite Ha. apply Forall_seq. intros; lia. }
  apply (proj1 (Forall_fmap fst (fun a => (n <= a)%nat) (loweredOps n op))) in Hf.
  exact Hf.
Qed.

Lemma legalize_threads fuel ops :
  forall rw m V0,
    Forall (fun po => wellFormed po.2) ops ->
    Forall (fun po => (Z.to_nat (numElementsOf po.2) < fuel)%nat) ops ->
    rngStateIsGlobal rw -> holds m V0 -> 0 <= V0 < 2 ^ 128 ->
    exists rw' added m',
      legalize fuel ops rw = Returned (success, rw')
      /\ insertionBlock rw' = insertionBlock rw ++ added
      /\ Forall (fun po => (nextOp rw <= po.1)%nat) added
      /\ exec added m = Some m'
      /\ holds m' ((V0 + sumDeltas ops) mod 2 ^ 128)
      /\ (forall q, q ∉ ops.*1 -> replaced rw' !! q = replaced rw !! q)
      /\ (NoDup ops.*1 ->
          forall pre p op post,
            ops = pre ++ (p, op) :: post ->
            resultOf rw' p m'
            = Some (VTensor (getType op)
                      (VInt (wordSizeOf op)
                         <$> packed ((V0 + sumDeltas pre) mod 2 ^ 128)
                                    (numElementsOf op) (wordSizeOf op)))).
Proof.
  induction ops as [|[p0 op0] ops IH]; intros rw m V0 Hwf Hf Hpre Hm HV.
  - exists rw, [], m. split; [reflexivity|].
    split; [rewrite app_nil_r; reflexivity|]. split; [constructor|].
    split; [reflexivity|]. split.
    { cbn [sumDeltas foldr]. rewrite Z.add_0_r, Z.mod_small by lia. exact Hm. }
    split; [reflexivity|].
    intros _ pre p op post Habs. destruct pre; discriminate Habs.
  - apply Forall_cons in Hwf as [[Hd Hws] Hwf].
    apply Forall_cons in Hf as [Hf0 Hf]. cbn [snd] in Hd, Hws, Hf0.
    destruct (lowering_runs fuel p0 op0 rw m V0 Hws Hpre Hf0 Hm)
      as (Hret & m1 & Hex1 & _ & Hnew & Hres1).
    rewrite (deltaConstant_uint64 op0 Hd) in Hnew.
    set (V1 := (V0 + delta op0) mod 2 ^ 128) in *.
    assert (0 <= V1 < 2 ^ 128) as HV1
      by (apply Z.mod_pos_bound; lia).
    pose proof (rngStateIsGlobal_lowered p0 op0 rw Hpre) as Hpre1.
    destruct (IH (lowered p0 op0 rw) m1 V1 Hwf Hf Hpre1 Hnew HV1)
      as (rw' & added & m' & Hleg & Hblock & Hge & Hex & Hcount & Hrep & Hres).
    assert (forall s, (V1 + s) mod 2 ^ 128
                      = (V0 + (delta op0 + s)) mod 2 ^ 128) as Hsum.
    { intros s. unfold V1. rewrite Zplus_mod_idemp_l. f_equal. lia. }
    exists rw', (loweredOps (nextAfter rw) op0 ++ added), m'.
    split; [cbn [legalize]; rewrite Hret; exact Hleg|].
    split; [rewrite Hblock; cbn [lowered insertionBlock];
            rewrite app_assoc; reflexivity|].
    split.
    { apply Forall_app. split.
      - eapply Forall_impl; [apply loweredOps_addresses_ge|]. cbn beta.
        intros po Hpo. pose proof (nextOp_le_nextAfter rw). lia.
      - eapply Forall_impl; [exact Hge|]. cbn beta. intros po Hpo.
        cbn [lowered nextOp] in Hpo. pose proof (nextOp_le_nextAfter rw). lia. }
    split; [rewrite exec_app, Hex1; exact Hex|].
    split; [cbn [sumDeltas foldr snd]; rewrite <- Hsum; exact Hcount|].
    split.
    { intros q Hq. cbn [fmap list_fmap fst] in Hq.
      apply not_elem_of_cons in Hq as [Hq0 Hq].
      rewrite (Hrep q Hq). cbn [lowered replaced].
      apply lookup_insert_ne. congruence. }
    intros Hnd pre p op post Heq. cbn [fmap list_fmap fst] in Hnd.
    apply NoDup_cons in Hnd as [Hp0 Hnd].
    destruct pre as [|x pre].
    + cbn [app] in Heq.
      assert (p = p0 /\ op = op0) as [-> ->] by (split; congruence).
      cbn [sumDeltas foldr]. rewrite Z.add_0_r, Z.mod_small by lia.
      rewrite <- Hres1. rewrite resultOf_lowered.
      unfold resultOf, replacementOf. rewrite (Hrep p0 Hp0).
      cbn [lowered replaced]. rewrite lookup_insert_eq. cbn [mbind option_bind].
      apply (exec_frame added m1 m' _ Hex Hge). cbn [lowered nextOp]. lia.
    + cbn [app] in Heq.
      assert (x = (p0, op0)) as -> by congruence.
      assert (ops = pre ++ (p, op) :: post) as Hops by congruence.
      cbn [sumDeltas foldr snd]. rewrite <- Hsum.
      apply (Hres Hnd pre p op post Hops).
Qed.

Lemma runOnOperation_legalized fuel ops rw rw' :
  legalize fuel ops rw = Returned (success, rw') ->
  runOnOperation fuel ops rw = Returned (passSucceeded, rw').
Proof.
  intros H. unfold runOnOperation, bind, applyPartialConversion.
  rewrite H. reflexivity.
Qed.

End Threading.

(** X10. After the pass has lowered any list of well-formed requests, the
    emitted code, run from a 128-bit counter [V0], leaves the counter at
    [(V0 + d1 + ... + dK) mod 2^128], a 128-bit value again. *)
Theorem counter_after_pass_is_sum fuel ops rw m V0 :
  Forall (fun po => wellFormed po.2) ops ->
  Forall (fun po => (Z.to_nat (numElementsOf po.2) < fuel)%nat) ops ->
  rngStateIsGlobal rw -> holds m V0 -> 0 <= V0 < 2 ^ 128 ->
  exists rw' m',
    runOnOperation fuel ops rw = Returned (passSucceeded, rw')
    /\ exec (drop (length (insertionBlock rw)) (insertionBlock rw')) m = Some m'
    /\ counterOf m' = Some (VInt 128 ((V0 + sumDeltas ops) mod 2 ^ 128))
    /\ 0 <= (V0 + sumDeltas ops) mod 2 ^ 128 < 2 ^ 128.
Proof.
  intros Hwf Hf Hpre Hm HV.
  destruct (legalize_threads fuel ops rw m V0 Hwf Hf Hpre Hm HV)
    as (rw' & added & m' & Hleg & Hblock & _ & Hex & Hcount & _).
  exists rw', m'. split; [apply runOnOperation_legalized, Hleg|].
  split; [rewrite Hblock, drop_app_length; exact Hex|].
  split; [exact Hcount|]. apply Z.mod_pos_bound. lia.
Qed.

Lemma counter_after_pass_is_sum_witness :
  Forall (fun po => wellFormed po.2)
         [(0%nat, request 5 2 64); (20%nat, request (2 ^ 64 - 1) 1 32);
          (40%nat, request 11 0 8)]
  /\ rngStateIsGlobal emptyModule
  /\ holds (machineHolding (2 ^ 128 - 1)) (2 ^ 128 - 1)
  /\ exists rw' m',
      runOnOperation 3 [(0%nat, request 5 2 64);
                        (20%nat, request (2 ^ 64 - 1) 1 32);
                        (40%nat, request 11 0 8)] emptyModule
      = Returned (passSucceeded, rw')
      /\ exec (insertionBlock rw') (machineHolding (2 ^ 128 - 1)) = Some m'
      /\ counterOf m' = Some (VInt 128 (2 ^ 64 + 14)).
Proof.
  assert (Forall (fun po => wellFormed po.2)
            [(0%nat, request 5 2 64); (20%nat, request (2 ^ 64 - 1) 1 32);
             (40%nat, request 11 0 8)]) as Hwf
    by (repeat constructor; apply wellFormed_request; by_computation).
  split; [exact Hwf|]. split; [exact rngStateIsGlobal_emptyModule|].
  split; [apply holds_machineHolding|].
  destruct (counter_after_pass_is_sum 3 _ emptyModule
              (machineHolding (2 ^ 128 - 1)) (2 ^ 128 - 1) Hwf
              ltac:(repeat constructor; vm_compute; lia)
              rngStateIsGlobal_emptyModule (holds_machineHolding _)
              ltac:(by_computation))
    as (rw' & m' & Hret & Hex & Hc & _).
  exists rw', m'. split; [exact Hret|]. split; [exact Hex|exact Hc].
Defined.

(** X11. After the pass has lowered any list of well-formed requests at
    distinct instructions, the value that replaces each request, read in
    the final machine, is the packing of the counter as it stood before
    that request's own increment, [(V0 + d1 + ... + d(j-1)) mod 2^128]:
    later lowerings neither overwrite an earlier result nor redirect an
    earlier replacement. *)
Theorem each_request_gets_prefix_sum fuel ops rw m V0 :
  Forall (fun po => wellFormed po.2) ops ->
  Forall (fun po => (Z.to_nat (numElementsOf po.2) < fuel)%nat) ops ->
  NoDup ops.*1 ->
  rngStateIsGlobal rw -> holds m V0 -> 0 <= V0 < 2 ^ 128 ->
  exists rw' m',
    runOnOperation fuel ops rw = Returned (passSucceeded, rw')
    /\ exec (drop (length (insertionBlock rw)) (insertionBlock rw')) m = Some m'
    /\ (forall pre p op post,
           ops = pre ++ (p, op) :: post ->
           resultOf rw' p m'
           = Some (VTensor (getType op)
                     (VInt (wordSizeOf op)
                        <$> packed ((V0 + sumDeltas pre) mod 2 ^ 128)
                                   (numElementsOf op) (wordSizeOf op))))
    /\ (forall q, q ∉ ops.*1 -> replaced rw' !! q = replaced rw !! q).
Proof.
  intros Hwf Hf Hnd Hpre Hm HV.
  destruct (legalize_threads fuel ops rw m V0 Hwf Hf Hpre Hm HV)
    as (rw' & added & m' & Hleg & Hblock & _ & Hex & _ & Hrep & Hres).
  exists rw', m'. split; [apply runOnOperation_legalized, Hleg|].
  split; [rewrite Hblock, drop_app_length; exact Hex|].
  split; [exact (Hres Hnd)|exact Hrep].
Qed.

Lemma each_request_gets_prefix_sum_witness :
  Forall (fun po => wellFormed po.2)
         [(0%nat, request 5 2 64); (20%nat, request 7 1 64)]
  /\ NoDup [(0%nat, request 5 2 64); (20%nat, request 7 1 64)].*1
  /\ rngStateIsGlobal emptyModule
  /\ holds (machineHolding 0x7012395) 0x7012395
  /\ exists rw' m',
      runOnOperation 3 [(0%nat, request 5 2 64); (20%nat, request 7 1 64)]
                     emptyModule
      = Returned (passSucceeded, rw')
      /\ resultOf rw' 0%nat m'
         = Some (VTensor (tensorOf 2 64) [VInt 64 0; VInt 64 0x7012395])
      /\ resultOf rw' 20%nat m'
         = Some (VTensor (tensorOf 1 64) [VInt 64 0x701239A]).
Proof.
  assert (Forall (fun po => wellFormed po.2)
            [(0%nat, request 5 2 64); (20%nat, request 7 1 64)]) as Hwf
    by (repeat constructor; apply wellFormed_request; by_computation).
  assert (NoDup [(0%nat, request 5 2 64); (20%nat, request 7 1 64)].*1)
    as Hnd by (cbn; apply NoDup_cons_2;
               [rewrite list_elem_of_singleton; lia|apply NoDup_singleton]).
  split; [exact Hwf|]. split; [exact Hnd|].
  split; [exact rngStateIsGlobal_emptyModule|].
  split; [apply holds_machineHolding|].
  destruct (each_request_gets_prefix_sum 3 _ emptyModule
              (machineHolding 0x7012395) 0x7012395 Hwf
              ltac:(repeat constructor; vm_compute; lia) Hnd
              rngStateIsGlobal_emptyModule (holds_machineHolding _)
              ltac:(by_computation))
    as (rw' & m' & Hret & _ & Hres & _).
  exists rw', m'. split; [exact Hret|]. split.
  - rewrite (Hres [] 0%nat (request 5 2 64) [(20%nat, request 7 1 64)] eq_refl).
    reflexivity.
  - rewrite (Hres [(0%nat, request 5 2 64)] 20%nat (request 7 1 64) [] eq_refl).
    reflexivity.
Defined.

(** ** The rest of the symbol table *)

Lemma lookupSymbolIn_tableAfter_other rw s :
  s <> globalName ->
  lookupSymbolIn (tableAfter rw) s = lookupSymbolIn (symbolTableBody rw) s.
Proof.
  intros Hs. unfold tableAfter.
  destruct (lookupSymbolIn (symbolTableBody rw) globalName); [reflexivity|].
  cbn [lookupSymbolIn snd rngStateGlobal getNameIfSymbol].
  destruct (decide (Some "rng_state"%string = Some s)) as [Heq|_];
    [|reflexivity].
  exfalso. apply Hs. unfold globalName. congruence.
Qed.

(** X12. Whatever requests the pass lowers, the symbol table only grows,
    by at most one definition at its start: every symbol other than
    [rng_state] resolves as before, and an [rng_state] that was found
    before is the definition found afterwards. *)
Theorem other_symbols_untouched fuel ops rw :
  rngStateIsGlobal rw ->
  Forall (fun po => validWordSize po.2) ops ->
  Forall (fun po => (iterations po.2 < fuel)%nat) ops ->
  exists rw' defined,
    runOnOperation fuel ops rw = Returned (passSucceeded, rw')
    /\ symbolTableBody rw' = defined ++ symbolTableBody rw
    /\ (length defined <= 1)%nat
    /\ (forall s, s <> "rng_state" ->
                  lookupSymbolIn (symbolTableBody rw') s
                  = lookupSymbolIn (symbolTableBody rw) s)
    /\ (forall g, lookupSymbolIn (symbolTableBody rw) "rng_state" = Some g ->
                  lookupSymbolIn (symbolTableBody rw') "rng_state" = Some g).
Proof.
  intros Hpre Hv Hf. destruct ops as [|po ops].
  - exists rw, []. repeat split; auto.
  - destruct (applyPartialConversion_returns fuel (po :: ops) rw Hpre
                ltac:(discriminate) Hv Hf) as (rw' & Hret & Htab).
    exists rw',
      (match lookupSymbolIn (symbolTableBody rw) globalName with
       | Some _ => []
       | None => [(nextOp rw, rngStateGlobal)]
       end).
    split; [apply runOnOperation_succeeds, Hret|]. rewrite Htab.
    split; [|split; [|split]].
    + unfold tableAfter.
      destruct (lookupSymbolIn (symbolTableBody rw) globalName); reflexivity.
    + destruct (lookupSymbolIn (symbolTableBody rw) globalName); cbn; lia.
    + intros s Hs. apply lookupSymbolIn_tableAfter_other. exact Hs.
    + intros g Hg. fold globalName in Hg |- *.
      destruct (tableAfter_found rw g Hg) as [-> _]. exact Hg.
Qed.

Lemma other_symbols_untouched_witness :
  rngStateIsGlobal
    {| symbolTableBody := [(0%nat, func_FuncOp "main")];
       insertionBlock := []; replaced := ∅; nextOp := 1 |}
  /\ exists rw',
      runOnOperation 3 [(5%nat, request 5 2 64); (6%nat, request 7 2 64)]
        {| symbolTableBody := [(0%nat, func_FuncOp "main")];
           insertionBlock := []; replaced := ∅; nextOp := 1 |}
      = Returned (passSucceeded, rw')
      /\ lookupSymbolIn (symbolTableBody rw') "main"
         = Some (0%nat, func_FuncOp "main").
Proof.
  assert (rngStateIsGlobal
            {| symbolTableBody := [(0%nat, func_FuncOp "main")];
               insertionBlock := []; replaced := ∅; nextOp := 1 |}) as Hpre
    by (intros po H; vm_compute in H; discriminate H).
  split; [exact Hpre|].
  destruct (other_symbols_untouched 3
              [(5%nat, request 5 2 64); (6%nat, request 7 2 64)] _ Hpre
              ltac:(repeat constructor; by_computation)
              ltac:(repeat constructor; vm_compute; lia))
    as (rw' & defined & Hret & _ & _ & Hother & _).
  exists rw'. split; [exact Hret|].
  rewrite (Hother "main"%string ltac:(discriminate)). reflexivity.
Defined.
